(** * TaskManagementApp: cache-aside task service

    A shallow embedding of [CacheService] (src/common/services/cache.service.ts)
    and of [TasksService] (the tasks service: create, findOne, update, remove,
    updateStatus), together with the properties of the specification that
    concern them.

    The services are asynchronous methods over three collaborators: a TypeORM
    repository of tasks, a cache-manager backend and a BullMQ queue.  They are
    modelled as computations in a state-and-exception monad over a [World]
    holding the three collaborators.  An [await] is a sequencing point; the
    places where two requests can interleave are made explicit in the module
    [Interleaving]. *)

From Stdlib Require Import ZArith Lia.
From stdpp Require Import base strings gmap list pretty.

Open Scope Z_scope.
Open Scope string_scope.
Open Scope list_scope.

(** ** Data model *)

(** Modelled from the spec: the enum of task-status.enum.ts, which is not
    among the sources; the spec lists its four members. *)
Inductive TaskStatus := PENDING | IN_PROGRESS | COMPLETED | OVERDUE.

(** Modelled from the spec: the enum of task-priority.enum.ts. *)
Inductive TaskPriority := LOW | MEDIUM | HIGH.

#[global] Instance TaskStatus_eq_dec : EqDecision TaskStatus.
Proof. solve_decision. Defined.
#[global] Instance TaskPriority_eq_dec : EqDecision TaskPriority.
Proof. solve_decision. Defined.

(** Modelled from the spec: the entity of task.entity.ts.  The fields are the
    ones the service reads or writes.  A date is the instant it denotes (epoch
    milliseconds), whether the object holds it as a [Date] or, after a trip
    through the cache, as an ISO string.  The store-managed timestamps and the
    [user] relation are never touched by the service and are left out; the
    source has no version column (the service never reads or passes one). *)
Record Task := mkTask {
  id : string;
  title : string;
  description : option string;
  status : TaskStatus;
  priority : TaskPriority;
  dueDate : option Z;
  userId : string;
}.

#[global] Instance Task_eq_dec : EqDecision Task.
Proof. solve_decision. Defined.

(** Modelled from the spec: create-task.dto.ts; [status] and [priority] are
    optional and fall back to the column defaults. *)
Module CreateTaskDto.
Record t := mk {
  title : string;
  description : option string;
  status : option TaskStatus;
  priority : option TaskPriority;
  dueDate : option string;
  userId : string;
}.
End CreateTaskDto.

(** Modelled from the spec: update-task.dto.ts, every field optional.  [None]
    is an absent ([undefined]) field. *)
Module UpdateTaskDto.
Record t := mk {
  title : option string;
  description : option string;
  status : option TaskStatus;
  priority : option TaskPriority;
  dueDate : option string;
}.
Definition empty : t := mk None None None None None.
End UpdateTaskDto.

(** The JavaScript values that travel through the (generic) cache and the
    queue payloads. *)
Inductive JsValue :=
  | JsNull
  | JsBool (b : bool)
  | JsNum (n : Z)
  | JsStr (s : string)
  | JsStatus (s : TaskStatus)
  | JsTask (t : Task).

#[global] Instance JsValue_eq_dec : EqDecision JsValue.
Proof. solve_decision. Defined.

(** [cached !== null] *)
Definition is_null (v : JsValue) : bool :=
  match v with JsNull => true | _ => false end.

(** Truthiness of an optional string field: [undefined] and the empty string
    are falsy. *)
Definition truthy (o : option string) : bool :=
  match o with
  | None | Some "" => false
  | Some _ => true
  end.

(** ** Built-ins and declarations outside the sources *)

(** [JSON.stringify], [JSON.parse] ([None] is a thrown SyntaxError),
    [new Date(string)], the identifier the database generates for an inserted
    row, and the column default of [priority]. *)
Class Platform := {
  JSON_stringify : JsValue → string;
  JSON_parse : string → option JsValue;
  new_Date : string → Z;
  generate_id : gmap string Task → string;
  default_priority : TaskPriority;
}.

(** Modelled from the spec: the column default of [status] in task.entity.ts
    ("the default (PENDING)"). *)
Definition default_status : TaskStatus := PENDING.

(** ** The world: repository, cache backend, queues, logger *)

Inductive CacheOp := OpGet | OpSet | OpDel.

Inductive Exception :=
  | NotFoundException (message : string)
  | CacheBackendError (op : CacheOp)
  | TypeError.

(** Which cache-manager calls currently reject (a backend outage). *)
Record Faults := mkFaults {
  get_fails : bool;
  set_fails : bool;
  del_fails : bool;
}.

Definition no_faults : Faults := mkFaults false false false.

Inductive LogLevel := debug | warn | error.

(** A BullMQ job: [queue.add(name, data)]; [data] is an object literal. *)
Record Job := mkJob {
  name : string;
  data : list (string * JsValue);
}.

(** A call made on the tasks repository (a record of what reached the store). *)
Inductive DbCall :=
  | DbInsert (i : string)
  | DbCount (i : string)
  | DbFindOne (i : string)
  | DbSave (i : string)
  | DbRemove (i : string).

#[global] Instance DbCall_eq_dec : EqDecision DbCall.
Proof. solve_decision. Defined.

(** The model has no clock: a cache entry stays until it is overwritten or
    deleted, so every statement about a cached read is about a read within
    the TTL of the entry. *)
Record World := mkWorld {
  tasksRepository : gmap string Task;        (* the tasks table, by id *)
  cacheManager : gmap string (string * Z);   (* key -> (data, ttl) *)
  cacheFaults : Faults;
  queues : gmap string (list Job);           (* queue name -> jobs, oldest first *)
  logger : list (LogLevel * string);
  dbCalls : list DbCall;
}.

(** ** The monad of the asynchronous methods *)

Inductive Result (A : Type) :=
  | Ok (a : A)
  | Throw (e : Exception).
Arguments Ok {A} a.
Arguments Throw {A} e.

Definition M (A : Type) : Type := World → Result A * World.

Definition ret {A} (a : A) : M A := λ w, (Ok a, w).
Definition throw {A} (e : Exception) : M A := λ w, (Throw e, w).
Definition bind {A B} (m : M A) (k : A → M B) : M B :=
  λ w, match m w with
       | (Ok a, w') => k a w'
       | (Throw e, w') => (Throw e, w')
       end.
(** [try { m } catch (err) { h err }] *)
Definition try_catch {A} (m : M A) (h : Exception → M A) : M A :=
  λ w, match m w with
       | (Ok a, w') => (Ok a, w')
       | (Throw e, w') => h e w'
       end.

#[global] Instance M_ret : MRet M := @ret.
#[global] Instance M_bind : MBind M := λ A B k m, bind m k.

(** ** Collaborators *)

Definition set_cacheManager (c : gmap string (string * Z)) (w : World) : World :=
  mkWorld (tasksRepository w) c (cacheFaults w) (queues w) (logger w) (dbCalls w).
Definition set_tasksRepository (r : gmap string Task) (w : World) : World :=
  mkWorld r (cacheManager w) (cacheFaults w) (queues w) (logger w) (dbCalls w).
Definition set_queues (q : gmap string (list Job)) (w : World) : World :=
  mkWorld (tasksRepository w) (cacheManager w) (cacheFaults w) q (logger w) (dbCalls w).
Definition record_call (c : DbCall) (w : World) : World :=
  mkWorld (tasksRepository w) (cacheManager w) (cacheFaults w) (queues w)
          (logger w) (dbCalls w ++ [c]).

Definition log_entry (l : LogLevel) (msg : string) (w : World) : World :=
  mkWorld (tasksRepository w) (cacheManager w) (cacheFaults w) (queues w)
          (logger w ++ [(l, msg)]) (dbCalls w).

Module Logger.
Definition log (l : LogLevel) (msg : string) : M unit :=
  λ w, (Ok (), log_entry l msg w).
End Logger.

(** cache-manager's [Cache]: [get], [set], [del]. *)
Module CacheManager.
Definition get (key : string) : M (option string) :=
  λ w, if get_fails (cacheFaults w) then (Throw (CacheBackendError OpGet), w)
       else (Ok (fst <$> cacheManager w !! key), w).

Definition set (key data : string) (ttl : Z) : M unit :=
  λ w, if set_fails (cacheFaults w) then (Throw (CacheBackendError OpSet), w)
       else (Ok (), set_cacheManager (<[key := (data, ttl)]> (cacheManager w)) w).

Definition del (key : string) : M unit :=
  λ w, if del_fails (cacheFaults w) then (Throw (CacheBackendError OpDel), w)
       else (Ok (), set_cacheManager (delete key (cacheManager w)) w).
End CacheManager.

(** ** CacheService *)

Module CacheService.
Section CacheService.
Context `{Platform}.

Definition namespace : string := "app".

Definition buildKey (key : string) : string := namespace +:+ ":" +:+ key.

Definition get (key : string) : M JsValue :=
  let namespacedKey := buildKey key in
  cached ← CacheManager.get namespacedKey;
  match cached with
  | None | Some "" =>
      Logger.log debug ("Cache MISS: " +:+ namespacedKey);;
      mret JsNull
  | Some cached =>
      Logger.log debug ("Cache HIT: " +:+ namespacedKey);;
      match JSON_parse cached with
      | Some v => mret v
      | None => mret (JsStr cached)
      end
  end.

Definition set (key : string) (value : JsValue) (ttlSeconds : Z) : M unit :=
  let namespacedKey := buildKey key in
  let data := match value with
              | JsStr s => s
              | _ => JSON_stringify value
              end in
  try_catch
    (CacheManager.set namespacedKey data ttlSeconds;;
     Logger.log debug ("Cache SET: " +:+ namespacedKey +:+ " (TTL: "
                       +:+ pretty ttlSeconds +:+ "s)"))
    (λ err, Logger.log error ("Cache SET ERROR: " +:+ namespacedKey)).

Definition delete (key : string) : M unit :=
  let namespacedKey := buildKey key in
  CacheManager.del namespacedKey;;
  Logger.log debug ("Cache DELETE: " +:+ namespacedKey).

Definition getOrSet (key : string) (fetcher : M JsValue) (ttlSeconds : Z)
  : M JsValue :=
  cached ← get key;
  if negb (is_null cached) then mret cached
  else
    Logger.log debug ("Cache POPULATE: " +:+ key);;
    value ← fetcher;
    set key value ttlSeconds;;
    mret value.

Definition has (key : string) : M bool :=
  value ← get key;
  mret (negb (is_null value)).
End CacheService.
End CacheService.

(** ** The TypeORM repository of tasks and the BullMQ queue *)

Module Repository.
Section Repository.
Context `{Platform}.

(** [create(dto)] copies the fields of the DTO into a new entity object; the
    entity has no identifier until it is saved. *)
Definition create (dto : CreateTaskDto.t) : CreateTaskDto.t := dto.

(** The row an INSERT of the entity [e] produces: a generated identifier and
    the column defaults for the fields the entity leaves out. *)
Definition new_row (e : CreateTaskDto.t) (w : World) : Task :=
  mkTask (generate_id (tasksRepository w))
         (CreateTaskDto.title e) (CreateTaskDto.description e)
         (default default_status (CreateTaskDto.status e))
         (default default_priority (CreateTaskDto.priority e))
         (new_Date <$> CreateTaskDto.dueDate e)
         (CreateTaskDto.userId e).

(** [save(entity)] on an entity without identifier: INSERT; the returned
    entity carries the identifier and the defaults. *)
Definition insert (e : CreateTaskDto.t) : M Task :=
  λ w, let t := new_row e w in
       (Ok t, record_call (DbInsert (id t))
                (set_tasksRepository (<[id t := t]> (tasksRepository w)) w)).

(** [save(entity)] on an object that carries an identifier: the row with
    that identifier takes the object's column values (UPDATE); when no such
    row exists the object is inserted under its identifier. *)
Definition save (t : Task) : M Task :=
  λ w, (Ok t, record_call (DbSave (id t))
                (set_tasksRepository (<[id t := t]> (tasksRepository w)) w)).

Definition count (i : string) : M Z :=
  λ w, (Ok (match tasksRepository w !! i with Some _ => 1 | None => 0 end),
        record_call (DbCount i) w).

Definition findOne (i : string) : M (option Task) :=
  λ w, (Ok (tasksRepository w !! i), record_call (DbFindOne i) w).

(** [remove(entity)]: DELETE by primary key. *)
Definition remove (t : Task) : M unit :=
  λ w, (Ok (), record_call (DbRemove (id t))
                 (set_tasksRepository (delete (id t) (tasksRepository w)) w)).
End Repository.
End Repository.

Module Queue.
Definition jobs (queue : string) (w : World) : list Job :=
  default [] (queues w !! queue).

(** [queue.add(name, data)].  The service does not await the returned
    promise; the job is handed to the broker when the call is made. *)
Definition add (queue : string) (jobName : string) (payload : list (string * JsValue))
  : M unit :=
  λ w, (Ok (), set_queues (<[queue := jobs queue w ++ [mkJob jobName payload]]> (queues w)) w).
End Queue.

(** ** TasksService *)

Module TasksService.
Section TasksService.
Context `{Platform}.

(** [@InjectQueue('task-processing') private taskQueue: Queue] *)
Definition taskQueue : string := "task-processing".

Definition create (createTaskDto : CreateTaskDto.t) : M Task :=
  let task := Repository.create createTaskDto in
  savedTask ← Repository.insert task;
  Queue.add taskQueue "task-status-update"
    [("taskId", JsStr (id savedTask)); ("status", JsStatus (status savedTask))];;
  mret savedTask.

(** The populate function handed to [getOrSet] by [findOne]. *)
Definition fetcher (i : string) : M JsValue :=
  count ← Repository.count i;
  if decide (count = 0) then
    throw (NotFoundException ("Task with ID " +:+ i +:+ " not found"))
  else
    task ← Repository.findOne i;
    mret (match task with Some t => JsTask t | None => JsNull end).

Definition findOne (i : string) : M JsValue :=
  CacheService.getOrSet ("task:" +:+ i) (fetcher i) 300.

Definition with_title (s : string) (t : Task) : Task :=
  mkTask (id t) s (description t) (status t) (priority t) (dueDate t) (userId t).
Definition with_description (s : string) (t : Task) : Task :=
  mkTask (id t) (title t) (Some s) (status t) (priority t) (dueDate t) (userId t).
Definition with_status (s : TaskStatus) (t : Task) : Task :=
  mkTask (id t) (title t) (description t) s (priority t) (dueDate t) (userId t).
Definition with_priority (p : TaskPriority) (t : Task) : Task :=
  mkTask (id t) (title t) (description t) (status t) p (dueDate t) (userId t).
Definition with_dueDate (d : Z) (t : Task) : Task :=
  mkTask (id t) (title t) (description t) (status t) (priority t) (Some d) (userId t).

(** [if (dto.f) task.f = dto.f]: the assignment happens when the field is
    present and truthy. *)
Definition assign_string (f : option string) (assign : string → Task → Task)
    (t : Task) : Task :=
  match f with
  | Some s => if truthy f then assign s t else t
  | None => t
  end.
(** The members of the two enums are non-empty strings: present is truthy. *)
Definition assign_enum {A} (f : option A) (assign : A → Task → Task)
    (t : Task) : Task :=
  match f with
  | Some a => assign a t
  | None => t
  end.

(** The five guarded assignments of [update], in source order. *)
Definition assign_fields (updateTaskDto : UpdateTaskDto.t) (task : Task) : Task :=
  let task := assign_string (UpdateTaskDto.title updateTaskDto) with_title task in
  let task := assign_string (UpdateTaskDto.description updateTaskDto) with_description task in
  let task := assign_enum (UpdateTaskDto.status updateTaskDto) with_status task in
  let task := assign_enum (UpdateTaskDto.priority updateTaskDto) with_priority task in
  let task := assign_string (UpdateTaskDto.dueDate updateTaskDto)
                (λ s, with_dueDate (new_Date s)) task in
  task.

(** [update] after its initial [await this.findOne(id)].  [findOne] is typed
    [Promise<any>]: a value that is not a task object (a raw string left in
    the cache, say) can be neither patched nor saved, which is modelled as a
    thrown [TypeError]. *)
Definition update_write (task : JsValue) (updateTaskDto : UpdateTaskDto.t) : M Task :=
  match task with
  | JsTask task =>
      let originalStatus := status task in
      let task := assign_fields updateTaskDto task in
      updatedTask ← Repository.save task;
      (if decide (originalStatus ≠ status updatedTask) then
         Queue.add taskQueue "task-status-update"
           [("taskId", JsStr (id updatedTask)); ("status", JsStatus (status updatedTask))]
       else mret ());;
      mret updatedTask
  | _ => throw TypeError
  end.

Definition update (i : string) (updateTaskDto : UpdateTaskDto.t) : M Task :=
  task ← findOne i;
  update_write task updateTaskDto.

Definition remove_write (task : JsValue) : M unit :=
  match task with
  | JsTask task => Repository.remove task
  | _ => throw TypeError
  end.

Definition remove (i : string) : M unit :=
  task ← findOne i;
  remove_write task.

Definition updateStatus (i : string) (status : TaskStatus) : M Task :=
  task ← findOne i;
  match task with
  | JsTask task => Repository.save (with_status status task)
  | _ => throw TypeError
  end.
End TasksService.
End TasksService.

(** ** Interleavings

    Requests run on one event loop: each runs without interruption from one
    [await] to the next, and another request may run in between.  The two
    interleavings the specification speaks of are spelled out here. *)

Module Interleaving.
Section Interleaving.
Context `{Platform}.

(** Where a call of [getOrSet] stands: before [await this.get(key)], before
    [await fetcher()], before [await this.set(...)], or returned. *)
Inductive Pc :=
  | AtGet
  | AtFetch
  | AtSet (value : JsValue)
  | Done (r : Result JsValue).

(** One uninterrupted segment of [getOrSet]. *)
Definition step (key : string) (fetcher : M JsValue) (ttlSeconds : Z)
    (pc : Pc) (w : World) : Pc * World :=
  match pc with
  | AtGet =>
      match CacheService.get key w with
      | (Ok cached, w') =>
          if negb (is_null cached) then (Done (Ok cached), w')
          else (AtFetch, log_entry debug ("Cache POPULATE: " +:+ key) w')
      | (Throw e, w') => (Done (Throw e), w')
      end
  | AtFetch =>
      match fetcher w with
      | (Ok value, w') => (AtSet value, w')
      | (Throw e, w') => (Done (Throw e), w')
      end
  | AtSet value =>
      match CacheService.set key value ttlSeconds w with
      | (Ok _, w') => (Done (Ok value), w')
      | (Throw e, w') => (Done (Throw e), w')
      end
  | Done r => (Done r, w)
  end.

(** One segment of a [findOne(i)] request. *)
Definition findOne_step (i : string) : Pc → World → Pc * World :=
  step ("task:" +:+ i) (TasksService.fetcher i) 300.

(** Requests for the same task, by position; a schedule names the request
    that runs its next segment. *)
Definition sched_step (i : string) (st : list Pc * World) (n : nat) : list Pc * World :=
  match st.1 !! n with
  | Some pc => let '(pc', w') := findOne_step i pc st.2 in (<[n := pc']> st.1, w')
  | None => st
  end.

Definition run_schedule (i : string) (sched : list nat) (st : list Pc * World)
  : list Pc * World :=
  foldl (sched_step i) st sched.


(** The outcome of a request, success or exception, as a value. *)
Definition attempt {A} (m : M A) : M (Result A) :=
  λ w, let '(r, w') := m w in (Ok r, w').

Definition resume {A B} (r : Result A) (k : A → M B) : M B :=
  match r with
  | Ok a => k a
  | Throw e => throw e
  end.

(** Two [update] requests on the same task whose lookups overlap: both
    complete their initial [findOne] before either goes on to patch and save.
    The two write phases then run one after the other, the second [save]
    starting once the first has completed.  ([save] is itself a SELECT
    followed by an UPDATE of the columns that differ; how the columns of two
    saves that overlap are combined is not modelled, and this run is used for
    the outcomes of the two requests only.) *)
Definition concurrent_updates (i : string) (dtoA dtoB : UpdateTaskDto.t)
  : M (Result Task * Result Task) :=
  readA ← attempt (TasksService.findOne i);
  readB ← attempt (TasksService.findOne i);
  resultA ← attempt (resume readA (λ task, TasksService.update_write task dtoA));
  resultB ← attempt (resume readB (λ task, TasksService.update_write task dtoB));
  mret (resultA, resultB).
End Interleaving.
End Interleaving.

(** ** Notions used in the statements *)

(** The message the service publishes for task [i] in status [s]. *)
Definition status_update (i : string) (s : TaskStatus) : Job :=
  mkJob "task-status-update" [("taskId", JsStr i); ("status", JsStatus s)].

Section Notions.
Context `{Platform}.

(** The key under which [findOne] caches a task. *)
Definition task_key (i : string) : string := CacheService.buildKey ("task:" +:+ i).

(** The serialised form [set] hands to the backend. *)
Definition serialise (value : JsValue) : string :=
  match value with
  | JsStr s => s
  | _ => JSON_stringify value
  end.

(** The world [set] leaves behind. *)
Definition after_set (key : string) (value : JsValue) (ttl : Z) (w : World) : World :=
  (CacheService.set key value ttl w).2.

Definition not_found (i : string) : Exception :=
  NotFoundException ("Task with ID " +:+ i +:+ " not found").

(** The cache has nothing to serve for task [i]: the read of its key comes
    back as a miss (no entry, an empty one, or one that parses to null). *)
Definition cache_miss (i : string) (w : World) : Prop :=
  (CacheService.get ("task:" +:+ i) w).1 = Ok JsNull.

(** The world once a lookup has read the cache and announced a populate. *)
Definition after_miss (i : string) (w : World) : World :=
  log_entry debug ("Cache POPULATE: " +:+ "task:" +:+ i)
    (CacheService.get ("task:" +:+ i) w).2.

(** The world after [queue.add] of a job on the service's queue. *)
Definition publish (j : Job) (w : World) : World :=
  set_queues (<[TasksService.taskQueue :=
                  Queue.jobs TasksService.taskQueue w ++ [j]]> (queues w)) w.

(** The world after [save] of an object that carries its identifier. *)
Definition saved (t : Task) (w : World) : World :=
  record_call (DbSave (id t))
    (set_tasksRepository (<[id t := t]> (tasksRepository w)) w).

(** The world after the two queries of the populate function. *)
Definition fetched (i : string) (w : World) : World :=
  record_call (DbFindOne i) (record_call (DbCount i) w).

(** The world a lookup leaves behind when it misses the cache and fetches
    the task [t] from the store. *)
Definition after_fetch (i : string) (t : Task) (w : World) : World :=
  after_set ("task:" +:+ i) (JsTask t) 300 (fetched i (after_miss i w)).

(** A task survives the trip through the cache: its serialisation is a
    non-empty string that parses back to it. *)
Definition roundtrips (t : Task) : Prop :=
  JSON_stringify (JsTask t) ≠ ""
  ∧ JSON_parse (JSON_stringify (JsTask t)) = Some (JsTask t).


End Notions.

(** A field of an object literal. *)
Definition field (key : string) (payload : list (string * JsValue)) : option JsValue :=
  (list_to_map payload : gmap string JsValue) !! key.


(** What a request published: nothing, or the jobs [js] appended to the
    queue 'task-processing', every other queue untouched. *)
Definition publishes (w w' : World) (js : list Job) : Prop :=
  match js with
  | [] => queues w' = queues w
  | _ => queues w' = <["task-processing" := Queue.jobs "task-processing" w ++ js]> (queues w)
  end.

(** The transitions the specification allows (leaving the due date aside):
    PENDING or IN_PROGRESS to COMPLETED or OVERDUE, and OVERDUE to COMPLETED. *)
Definition spec_allowed_transition (from to : TaskStatus) : bool :=
  match from, to with
  | PENDING, COMPLETED | IN_PROGRESS, COMPLETED
  | PENDING, OVERDUE | IN_PROGRESS, OVERDUE
  | OVERDUE, COMPLETED => true
  | _, _ => false
  end.

(** The payload the specification asks for: taskId, status and occurredAt. *)
Definition spec_payload (payload : list (string * JsValue)) : Prop :=
  (∃ i, field "taskId" payload = Some (JsStr i))
  ∧ (∃ s, field "status" payload = Some (JsStatus s))
  ∧ (∃ n, field "occurredAt" payload = Some (JsNum n)).

(** ** The rest of CacheService: clear *)

Module CacheAdmin.
(** What [clear] can throw: the rejection of the store's [reset], or its own
    error when the store has no [reset]. *)
Inductive ClearError :=
  | ResetFailed (e : Exception)
  | NotSupported (message : string).

(** cache-manager's [reset()]: every key of the store is removed. *)
Definition reset : M unit := λ w, (Ok (), set_cacheManager ∅ w).

(** [clear()].  [store_reset] is the [reset] method of the configured store,
    [None] when [typeof redisCache.reset] is not ['function']. *)
Definition clear (store_reset : option (M unit)) (w : World)
  : (ClearError + unit) * World :=
  match store_reset with
  | Some reset =>
      match reset w with
      | (Ok _, w') => (inr (), log_entry warn "Cache CLEARED: All keys removed" w')
      | (Throw e, w') => (inl (ResetFailed e), w')
      end
  | None =>
      (inl (NotSupported "Cache store does not support reset()"),
       log_entry error "reset() not supported by this cache store" w)
  end.
End CacheAdmin.

(** ** The list queries of the repository *)

(** [Partial<{ status: TaskStatus; priority: TaskPriority }>] *)
Module Filters.
Record t := mk {
  status : option TaskStatus;
  priority : option TaskPriority;
}.
Definition none : t := mk None None.
End Filters.

Module RepositoryQueries.
(** The rows of the table, in the order the store scans them (no query of the
    service asks for an order). *)
Definition rows (w : World) : list Task := (map_to_list (tasksRepository w)).*2.

(** [where: filters]: the conditions that are present, combined by AND. *)
Definition matches (filters : Filters.t) (t : Task) : bool :=
  match Filters.status filters with
  | Some s => bool_decide (status t = s)
  | None => true
  end
  && match Filters.priority filters with
     | Some p => bool_decide (priority t = p)
     | None => true
     end.

(** OFFSET and LIMIT; an absent ([undefined]) [skip] or [take] is no clause. *)
Definition window {A} (skip take : option nat) (l : list A) : list A :=
  let l := match skip with Some n => drop n l | None => l end in
  match take with Some n => firstn n l | None => l end.

(** [findAndCount({ where, skip, take })]: the page, and the number of rows
    that match the conditions whatever the page. *)
Definition findAndCount (filters : Filters.t) (skip take : option nat)
  : M (list Task * nat) :=
  λ w, let matching := List.filter (matches filters) (rows w) in
       (Ok (window skip take matching, length matching), w).

(** [find()] *)
Definition find : M (list Task) := λ w, (Ok (rows w), w).

(** SUM(CASE WHEN c THEN 1 ELSE 0 END) over the rows: NULL when there is no
    row. *)
Definition sum_case (c : Task → bool) (l : list Task) : option nat :=
  match l with
  | [] => None
  | _ => Some (foldr (λ t acc, ((if c t then 1 else 0) + acc)%nat) 0%nat l)
  end.

(** The row of a raw query: an object with one property for each column of
    the result, under the name the database gives the column.  A column is
    [None] when it is NULL, a number otherwise (the driver hands a count over
    as its decimal string, which [parseInt] reads back). *)
Definition RawRow : Type := list (string * option nat).

(** [row.name]; [None] is [undefined] (the row has no such property) as well
    as [null], which [??] does not tell apart. *)
Fixpoint property (name : string) (row : RawRow) : option nat :=
  match row with
  | [] => None
  | (column, value) :: row => if String.eqb column name then value else property name row
  end.

(** The database is PostgreSQL (the migrations quote identifiers with double
    quotes and use [character varying]; the raw query of [findByStatus] has
    the placeholder [$1]).  PostgreSQL folds an identifier that is not quoted
    to lower case: a column the query labels [as inProgress] is named
    [inprogress] in the result. *)
Definition fold_letter (a : Ascii.ascii) : Ascii.ascii :=
  let n := Ascii.nat_of_ascii a in
  if ((65 <=? n) && (n <=? 90))%nat then Ascii.ascii_of_nat (n + 32) else a.

Fixpoint fold_identifier (s : string) : string :=
  match s with
  | EmptyString => EmptyString
  | String a s => String (fold_letter a) (fold_identifier s)
  end.

(** [expression as alias], the alias written without quotes. *)
Definition as_ (value : option nat) (alias : string) : string * option nat :=
  (fold_identifier alias, value).
End RepositoryQueries.

Module Stats.
Record t := mk {
  total : nat;
  completed : nat;
  inProgress : nat;
  pending : nat;
  highPriority : nat;
}.
End Stats.

(** ** The list methods of TasksService *)

Module TasksQueries.
(** [{ skip: number; take: number }] *)
Record Pagination := mkPagination {
  skip : nat;
  take : nat;
}.

Definition findWithFiltersAndPagination (filters : Filters.t)
    (pagination : option Pagination) : M (list Task * nat) :=
  RepositoryQueries.findAndCount filters (skip <$> pagination) (take <$> pagination).

Definition findAll : M (list Task) := RepositoryQueries.find.

(** The aggregate query: COUNT( * ) and four conditional sums, one row, each
    column under its alias. *)
Definition stats_query : M (option RepositoryQueries.RawRow) :=
  λ w, let l := RepositoryQueries.rows w in
       let sum_case := λ c, RepositoryQueries.sum_case c l in
       (Ok (Some
              [ RepositoryQueries.as_ (Some (length l)) "total";
                RepositoryQueries.as_
                  (sum_case (λ t, bool_decide (status t = COMPLETED))) "completed";
                RepositoryQueries.as_
                  (sum_case (λ t, bool_decide (status t = IN_PROGRESS))) "inProgress";
                RepositoryQueries.as_
                  (sum_case (λ t, bool_decide (status t = PENDING))) "pending";
                RepositoryQueries.as_
                  (sum_case (λ t, bool_decide (priority t = HIGH))) "highPriority" ]),
        w).

(** [parseInt(result?.name ?? '0', 10)] *)
Definition parse_column (result : option RepositoryQueries.RawRow) (name : string) : nat :=
  default 0%nat (result ≫= RepositoryQueries.property name).

Definition getStats : M Stats.t :=
  result ← stats_query;
  mret (Stats.mk (parse_column result "total")
                 (parse_column result "completed")
                 (parse_column result "inProgress")
                 (parse_column result "pending")
                 (parse_column result "highPriority")).
End TasksQueries.

(** ** TasksController *)

Module TasksController.
(** What a handler can throw: an exception of the service, or an
    [HttpException] of its own. *)
Inductive ControllerError :=
  | ServiceError (e : Exception)
  | HttpException (message : string) (status : Z).

Inductive Outcome (A : Type) :=
  | Returned (a : A)
  | Thrown (e : ControllerError).
Arguments Returned {A} a.
Arguments Thrown {A} e.

Section TasksController.
Context `{Platform}.

(** The body of the response of [findAll]; the last three fields are present
    in the paginated branch only. *)
Record Listing := mkListing {
  data : list Task;
  count : nat;
  totalCount : nat;
  page : option nat;
  limit : option nat;
  totalPages : option nat;
}.

(** [Math.ceil(totalCount / limit)], for a positive [limit]. *)
Definition ceil_div (n d : nat) : nat := ((n + d - 1) / d)%nat.

(** Truthiness of an optional number: [undefined] and 0 are falsy. *)
Definition positive (o : option nat) : bool :=
  match o with
  | None | Some O => false
  | Some _ => true
  end.

(** [findAll(status, priority, page, limit)]: the filters that are present,
    then the paginated branch when [page && limit].  [page] and [limit] are
    numbers, as the handler declares them. *)
Definition findAll (status : option TaskStatus) (priority : option TaskPriority)
    (page limit : option nat) : M Listing :=
  let filters := Filters.mk status priority in
  if positive page && positive limit then
    let p := default 0%nat page in
    let l := default 0%nat limit in
    '(tasks, totalCount) ← TasksQueries.findWithFiltersAndPagination filters
                             (Some (TasksQueries.mkPagination ((p - 1) * l)%nat l));
    mret (mkListing tasks (length tasks) totalCount (Some p) (Some l)
                    (Some (ceil_div totalCount l)))
  else
    '(tasks, totalCount) ← TasksQueries.findWithFiltersAndPagination filters None;
    mret (mkListing tasks (length tasks) totalCount None None None).

(** [getStats()] of the controller: all rows are loaded and counted in
    memory. *)
Definition getStats : M Stats.t :=
  tasks ← RepositoryQueries.find;
  mret (Stats.mk
          (length tasks)
          (length (List.filter (λ t, bool_decide (status t = COMPLETED)) tasks))
          (length (List.filter (λ t, bool_decide (status t = IN_PROGRESS)) tasks))
          (length (List.filter (λ t, bool_decide (status t = PENDING)) tasks))
          (length (List.filter (λ t, bool_decide (priority t = HIGH)) tasks))).

(** [!task] *)
Definition falsy (v : JsValue) : bool :=
  match v with
  | JsNull | JsBool false | JsNum 0 | JsStr "" => true
  | _ => false
  end.

Definition findOne (i : string) (w : World) : Outcome JsValue * World :=
  match TasksService.findOne i w with
  | (Ok task, w') =>
      if falsy task then
        (Thrown (HttpException ("Task with ID " +:+ i +:+ " not found in the database") 404),
         w')
      else (Returned task, w')
  | (Throw e, w') => (Thrown (ServiceError e), w')
  end.

(** An entry of the array [batchProcess] returns: [{ taskId, success: true,
    result }] or [{ taskId, success: false, error }].  [result] is the
    updated task, or [undefined] for a removal; [error] is the message of the
    caught error, kept here as the error itself. *)
Inductive BatchEntry :=
  | Success (taskId : string) (result : option Task)
  | Failure (taskId : string) (err : ControllerError).

Definition entry_taskId (e : BatchEntry) : string :=
  match e with
  | Success i _ | Failure i _ => i
  end.

(** The [switch (action)] inside the [try]. *)
Definition batch_action (action : string) (taskId : string) (w : World)
  : Outcome (option Task) * World :=
  if decide (action = "complete") then
    match TasksService.update taskId
            (UpdateTaskDto.mk None None (Some COMPLETED) None None) w with
    | (Ok task, w') => (Returned (Some task), w')
    | (Throw e, w') => (Thrown (ServiceError e), w')
    end
  else if decide (action = "delete") then
    match TasksService.remove taskId w with
    | (Ok _, w') => (Returned None, w')
    | (Throw e, w') => (Thrown (ServiceError e), w')
    end
  else (Thrown (HttpException ("Unknown action: " +:+ action) 400), w).

(** One turn of the [for] loop: the [try] and its [catch]. *)
Definition batch_turn (action : string) (st : list BatchEntry * World) (taskId : string)
  : list BatchEntry * World :=
  match batch_action action taskId st.2 with
  | (Returned result, w') => (st.1 ++ [Success taskId result], w')
  | (Thrown err, w') => (st.1 ++ [Failure taskId err], w')
  end.

Definition batchProcess (taskIds : list string) (action : string) (w : World)
  : Outcome (list BatchEntry) * World :=
  let '(results, w') := foldl (batch_turn action) ([], w) taskIds in
  (Returned results, w').
End TasksController.
End TasksController.

(** ** Notions used in the further statements *)

Section FurtherNotions.
Context `{Platform}.

(** What [get] makes of the backend's answer: [undefined] and the empty
    string are a miss; a string that parses is its value; any other string is
    itself. *)
Definition read_back (cached : option string) : JsValue :=
  match cached with
  | None | Some "" => JsNull
  | Some d => match JSON_parse d with Some v => v | None => JsStr d end
  end.

(** Every row of the table is stored under its own identifier. *)
Definition store_wf (w : World) : Prop :=
  ∀ k t, tasksRepository w !! k = Some t → id t = k.
End FurtherNotions.

(** The entry [batchProcess] reports for the id [i] under 'complete',
    respectively 'delete', when the lookup of [i] is answered by the table of
    [w]. *)
Definition complete_entry (w : World) (i : string) : TasksController.BatchEntry :=
  match tasksRepository w !! i with
  | Some t => TasksController.Success i (Some (TasksService.with_status COMPLETED t))
  | None => TasksController.Failure i (TasksController.ServiceError (not_found i))
  end.

Definition delete_entry (w : World) (i : string) : TasksController.BatchEntry :=
  match tasksRepository w !! i with
  | Some t => TasksController.Success i None
  | None => TasksController.Failure i (TasksController.ServiceError (not_found i))
  end.

Section BatchNotions.
Context `{Platform}.

(** What one turn of a batch does to an id whose lookup misses the cache:
    it reports [entry], changes the row of the id by [eff] and no other row,
    and writes at most the cache entry of the id. *)
Definition turn_effect (action : string)
    (entry : World → string → TasksController.BatchEntry)
    (eff : option Task → option Task) : Prop :=
  ∀ i w acc,
    store_wf w →
    cache_miss i w →
    ∃ w1, TasksController.batch_turn action (acc, w) i = (acc ++ [entry w i], w1)
          ∧ tasksRepository w1 !! i = eff (tasksRepository w !! i)
          ∧ (∀ j, j ≠ i → tasksRepository w1 !! j = tasksRepository w !! j)
          ∧ store_wf w1
          ∧ cacheFaults w1 = cacheFaults w
          ∧ (cacheManager w1 = cacheManager w
             ∨ ∃ x, cacheManager w1 = <[task_key i := x]> (cacheManager w)).

End BatchNotions.

(** ** A concrete platform for the examples *)

Module Demo.
Definition dq : string := String (Ascii.ascii_of_nat 34) EmptyString.
Definition quoted (s : string) : string := dq +:+ s +:+ dq.

Definition status_name (s : TaskStatus) : string :=
  match s with
  | PENDING => "PENDING" | IN_PROGRESS => "IN_PROGRESS"
  | COMPLETED => "COMPLETED" | OVERDUE => "OVERDUE"
  end.
Definition priority_name (p : TaskPriority) : string :=
  match p with LOW => "LOW" | MEDIUM => "MEDIUM" | HIGH => "HIGH" end.

Definition member (key value : string) : string := quoted key +:+ ":" +:+ value.

(** [JSON.stringify] on the values of the examples (their strings hold no
    quote and no backslash, so nothing needs escaping). *)
Definition stringify (v : JsValue) : string :=
  match v with
  | JsNull => "null"
  | JsBool b => if b then "true" else "false"
  | JsNum n => pretty n
  | JsStr s => quoted s
  | JsStatus s => quoted (status_name s)
  | JsTask t =>
      "{" +:+ member "id" (quoted (id t)) +:+ ","
          +:+ member "title" (quoted (title t)) +:+ ","
          +:+ member "description"
                (match description t with Some d => quoted d | None => "null" end) +:+ ","
          +:+ member "status" (quoted (status_name (status t))) +:+ ","
          +:+ member "priority" (quoted (priority_name (priority t))) +:+ ","
          +:+ member "dueDate"
                (match dueDate t with Some d => pretty d | None => "null" end) +:+ ","
          +:+ member "userId" (quoted (userId t)) +:+ "}"
  end.

(** A completed task, and the task a bare create request produces. *)
Definition sample : Task :=
  mkTask "t1" "Write report" (Some "first draft") COMPLETED LOW None "u1".
Definition created : Task :=
  mkTask "t1" "Write report" None PENDING MEDIUM None "u1".

(** [JSON.parse] on the strings of the examples: the serialisations of the
    two tasks above parse back to them, anything else is a syntax error. *)
Definition parse (s : string) : option JsValue :=
  if decide (s = stringify (JsTask sample)) then Some (JsTask sample)
  else if decide (s = stringify (JsTask created)) then Some (JsTask created)
  else None.

Definition platform : Platform := {|
  JSON_stringify := stringify;
  JSON_parse := parse;
  new_Date := λ s, if decide (s = "2030-01-01T00:00:00.000Z") then 1893456000000 else 0;
  generate_id := λ table, "t" +:+ pretty (N.of_nat (size table) + 1)%N;
  default_priority := MEDIUM;
|}.

(** An empty system, and one whose store holds [sample] (cold cache). *)
Definition fresh : World := mkWorld ∅ ∅ no_faults ∅ [] [].
Definition seeded : World := mkWorld {[ "t1" := sample ]} ∅ no_faults ∅ [] [].

Definition bare_request : CreateTaskDto.t :=
  CreateTaskDto.mk "Write report" None None None None "u1".
End Demo.

(** The examples below run on this platform; the general statements bind
    their own. *)
#[global] Existing Instance Demo.platform.

(** ** Further samples *)

Module Samples.
(** The platform of the examples, whose [JSON.parse] also reads the text
    null. *)
Definition parse (s : string) : option JsValue :=
  if decide (s = "null") then Some JsNull else Demo.parse s.

Definition platform : Platform := {|
  JSON_stringify := Demo.stringify;
  JSON_parse := parse;
  new_Date := @new_Date Demo.platform;
  generate_id := @generate_id Demo.platform;
  default_priority := MEDIUM;
|}.

Definition t2 : Task := mkTask "t2" "Book flights" None PENDING HIGH None "u1".
Definition t3 : Task := mkTask "t3" "Pay invoice" None OVERDUE HIGH None "u2".
Definition t4 : Task := mkTask "t4" "Call Ana" None IN_PROGRESS MEDIUM None "u2".
Definition t5 : Task := mkTask "t5" "Renew pass" None PENDING HIGH None "u1".

(** A system that holds five tasks (cold cache). *)
Definition board : World :=
  mkWorld (list_to_map [("t1", Demo.sample); ("t2", t2); ("t3", t3); ("t4", t4); ("t5", t5)])
          ∅ no_faults ∅ [] [].
End Samples.

(** * Properties *)

(** ** Basic facts about the cache service *)

Section CacheFacts.
Context `{Platform}.

Lemma task_key_eq i : task_key i = "app:task:" +:+ i.
Proof. reflexivity. Qed.

Lemma get_fault key w :
  get_fails (cacheFaults w) = true →
  CacheService.get key w = (Throw (CacheBackendError OpGet), w).
Proof.
  intros Hg. unfold CacheService.get, CacheManager.get, mbind, M_bind, bind.
  by rewrite Hg.
Qed.

(** [delete] has no handler of its own: a failing backend call is thrown to
    the caller. *)
Lemma delete_fault key w :
  del_fails (cacheFaults w) = true →
  CacheService.delete key w = (Throw (CacheBackendError OpDel), w).
Proof.
  intros Hd. unfold CacheService.delete, CacheManager.del, mbind, M_bind, bind.
  by rewrite Hd.
Qed.

Lemma delete_ok key w :
  del_fails (cacheFaults w) = false →
  CacheService.delete key w
  = (Ok (), log_entry debug ("Cache DELETE: " +:+ CacheService.buildKey key)
              (set_cacheManager (delete (CacheService.buildKey key) (cacheManager w)) w)).
Proof.
  intros Hd. unfold CacheService.delete, CacheManager.del, mbind, M_bind, bind.
  by rewrite Hd.
Qed.

Lemma get_miss key w :
  get_fails (cacheFaults w) = false →
  cacheManager w !! CacheService.buildKey key = None →
  CacheService.get key w
  = (Ok JsNull, log_entry debug ("Cache MISS: " +:+ CacheService.buildKey key) w).
Proof.
  intros Hg Hc. unfold CacheService.get, CacheManager.get, mbind, M_bind, bind.
  by rewrite Hg, Hc.
Qed.

Lemma get_hit key w d ttl :
  get_fails (cacheFaults w) = false →
  cacheManager w !! CacheService.buildKey key = Some (d, ttl) →
  d ≠ "" →
  CacheService.get key w
  = (Ok (match JSON_parse d with Some v => v | None => JsStr d end),
     log_entry debug ("Cache HIT: " +:+ CacheService.buildKey key) w).
Proof.
  intros Hg Hc Hd. unfold CacheService.get, CacheManager.get, mbind, M_bind, bind.
  rewrite Hg, Hc. cbn. destruct d as [|a d]; [done|].
  unfold Logger.log. by destruct (JSON_parse _).
Qed.

Lemma get_frame key w :
  tasksRepository (CacheService.get key w).2 = tasksRepository w
  ∧ cacheManager (CacheService.get key w).2 = cacheManager w
  ∧ cacheFaults (CacheService.get key w).2 = cacheFaults w
  ∧ queues (CacheService.get key w).2 = queues w
  ∧ dbCalls (CacheService.get key w).2 = dbCalls w.
Proof.
  destruct (get_fails (cacheFaults w)) eqn:Hg; [by rewrite get_fault|].
  destruct (cacheManager w !! CacheService.buildKey key) as [[d ttl]|] eqn:Hc;
    [|by rewrite get_miss].
  destruct (decide (d = "")) as [->|Hd]; [|by rewrite (get_hit key w d ttl)].
  unfold CacheService.get, CacheManager.get, mbind, M_bind, bind. by rewrite Hg, Hc.
Qed.

(** What [get] returns depends on the backend alone. *)
Lemma get_result_ext key w w' :
  cacheFaults w' = cacheFaults w →
  cacheManager w' = cacheManager w →
  (CacheService.get key w').1 = (CacheService.get key w).1.
Proof.
  intros Hf Hc. unfold CacheService.get, CacheManager.get, mbind, M_bind, bind.
  rewrite Hf, Hc. destruct (get_fails (cacheFaults w)); [done|].
  destruct (cacheManager w !! CacheService.buildKey key) as [[[|a d] ttl]|]; cbn; try done.
  by destruct (JSON_parse _).
Qed.

Lemma set_ok key value ttl w :
  set_fails (cacheFaults w) = false →
  CacheService.set key value ttl w
  = (Ok (),
     log_entry debug ("Cache SET: " +:+ CacheService.buildKey key +:+ " (TTL: "
                      +:+ pretty ttl +:+ "s)")
       (set_cacheManager
          (<[CacheService.buildKey key := (serialise value, ttl)]> (cacheManager w)) w)).
Proof.
  intros Hs. unfold CacheService.set, try_catch, CacheManager.set, mbind, M_bind, bind.
  by rewrite Hs.
Qed.

Lemma set_fault key value ttl w :
  set_fails (cacheFaults w) = true →
  CacheService.set key value ttl w
  = (Ok (), log_entry error ("Cache SET ERROR: " +:+ CacheService.buildKey key) w).
Proof.
  intros Hs. unfold CacheService.set, try_catch, CacheManager.set, mbind, M_bind, bind.
  by rewrite Hs.
Qed.

Lemma set_total key value ttl w :
  CacheService.set key value ttl w = (Ok (), after_set key value ttl w).
Proof.
  unfold after_set. destruct (set_fails (cacheFaults w)) eqn:Hs.
  - by rewrite set_fault.
  - by rewrite set_ok.
Qed.

Lemma after_set_frame key value ttl w :
  tasksRepository (after_set key value ttl w) = tasksRepository w
  ∧ cacheFaults (after_set key value ttl w) = cacheFaults w
  ∧ queues (after_set key value ttl w) = queues w
  ∧ dbCalls (after_set key value ttl w) = dbCalls w.
Proof.
  unfold after_set. destruct (set_fails (cacheFaults w)) eqn:Hs.
  - by rewrite set_fault.
  - by rewrite set_ok.
Qed.

Lemma after_set_cache key value ttl w :
  cacheManager (after_set key value ttl w)
  = if set_fails (cacheFaults w) then cacheManager w
    else <[CacheService.buildKey key := (serialise value, ttl)]> (cacheManager w).
Proof.
  unfold after_set. destruct (set_fails (cacheFaults w)) eqn:Hs.
  - by rewrite set_fault.
  - by rewrite set_ok.
Qed.
End CacheFacts.

(** ** Basic facts about [findOne] *)

Section FindOneFacts.
Context `{Platform}.

Lemma fetcher_absent i w :
  tasksRepository w !! i = None →
  TasksService.fetcher i w = (Throw (not_found i), record_call (DbCount i) w).
Proof.
  intros Hr. unfold TasksService.fetcher, Repository.count, mbind, M_bind, bind.
  by rewrite Hr.
Qed.

Lemma fetcher_present i t w :
  tasksRepository w !! i = Some t →
  TasksService.fetcher i w
  = (Ok (JsTask t), record_call (DbFindOne i) (record_call (DbCount i) w)).
Proof.
  intros Hr. unfold TasksService.fetcher, Repository.count, Repository.findOne,
    mbind, M_bind, bind.
  rewrite Hr. rewrite decide_False by done. cbn. by rewrite Hr.
Qed.

Lemma cold_cache_miss i w :
  get_fails (cacheFaults w) = false →
  cacheManager w !! task_key i = None →
  cache_miss i w.
Proof. intros Hg Hc. unfold cache_miss. by rewrite get_miss. Qed.

Lemma cache_miss_readable i w : cache_miss i w → get_fails (cacheFaults w) = false.
Proof.
  unfold cache_miss. intros Hm.
  destruct (get_fails (cacheFaults w)) eqn:Hg; [|done]. by rewrite get_fault in Hm.
Qed.

Lemma cache_miss_ext i w w' :
  cacheFaults w' = cacheFaults w →
  cacheManager w' = cacheManager w →
  cache_miss i w → cache_miss i w'.
Proof. unfold cache_miss. intros Hf Hc <-. by apply get_result_ext. Qed.

Lemma after_miss_frame i w :
  tasksRepository (after_miss i w) = tasksRepository w
  ∧ cacheManager (after_miss i w) = cacheManager w
  ∧ cacheFaults (after_miss i w) = cacheFaults w
  ∧ queues (after_miss i w) = queues w
  ∧ dbCalls (after_miss i w) = dbCalls w.
Proof. exact (get_frame ("task:" +:+ i) w). Qed.

Lemma get_on_miss i w :
  cache_miss i w →
  CacheService.get ("task:" +:+ i) w = (Ok JsNull, (CacheService.get ("task:" +:+ i) w).2).
Proof. unfold cache_miss. by destruct (CacheService.get _ w) as [r w1]; cbn; intros ->. Qed.

Lemma findOne_absent i w :
  cache_miss i w →
  tasksRepository w !! i = None →
  TasksService.findOne i w
  = (Throw (not_found i), record_call (DbCount i) (after_miss i w)).
Proof.
  intros Hm Hr. unfold TasksService.findOne, CacheService.getOrSet.
  unfold mbind at 1, M_bind, bind. rewrite (get_on_miss i w Hm). cbn [negb is_null].
  unfold mbind, M_bind, bind, Logger.log. fold (after_miss i w).
  rewrite fetcher_absent; [done|].
  by destruct (after_miss_frame i w) as (-> & _).
Qed.

Lemma findOne_miss i t w :
  cache_miss i w →
  tasksRepository w !! i = Some t →
  TasksService.findOne i w
  = (Ok (JsTask t), after_fetch i t w).
Proof.
  intros Hm Hr. unfold TasksService.findOne, CacheService.getOrSet.
  unfold mbind at 1, M_bind, bind. rewrite (get_on_miss i w Hm). cbn [negb is_null].
  unfold mbind, M_bind, bind, Logger.log. fold (after_miss i w).
  rewrite (fetcher_present i t).
  - by rewrite set_total.
  - by destruct (after_miss_frame i w) as (-> & _).
Qed.

Lemma after_fetch_frame i t w :
  tasksRepository (after_fetch i t w) = tasksRepository w
  ∧ cacheFaults (after_fetch i t w) = cacheFaults w
  ∧ queues (after_fetch i t w) = queues w
  ∧ dbCalls (after_fetch i t w) = dbCalls w ++ [DbCount i; DbFindOne i].
Proof.
  unfold after_fetch.
  destruct (after_set_frame ("task:" +:+ i) (JsTask t) 300 (fetched i (after_miss i w)))
    as (-> & -> & -> & ->).
  destruct (after_miss_frame i w) as (Hr & _ & Hf & Hq & Hd).
  unfold fetched. cbn [tasksRepository cacheFaults queues dbCalls record_call].
  rewrite Hr, Hf, Hq, Hd. by rewrite <- app_assoc.
Qed.

Lemma after_fetch_cache i t w :
  cacheManager (after_fetch i t w)
  = if set_fails (cacheFaults w) then cacheManager w
    else <[task_key i := (JSON_stringify (JsTask t), 300)]> (cacheManager w).
Proof.
  unfold after_fetch. rewrite after_set_cache.
  destruct (after_miss_frame i w) as (_ & Hc & Hf & _).
  unfold fetched. cbn [cacheManager cacheFaults record_call]. by rewrite Hc, Hf.
Qed.

Lemma findOne_hit i w d ttl v :
  get_fails (cacheFaults w) = false →
  cacheManager w !! task_key i = Some (d, ttl) →
  d ≠ "" →
  JSON_parse d = Some v →
  is_null v = false →
  TasksService.findOne i w
  = (Ok v, log_entry debug ("Cache HIT: " +:+ task_key i) w).
Proof.
  intros Hg Hc Hd Hp Hv. unfold TasksService.findOne, CacheService.getOrSet.
  unfold mbind at 1, M_bind, bind. rewrite (get_hit _ _ d ttl) by done.
  rewrite Hp, Hv. done.
Qed.
End FindOneFacts.

(** ** The guarded assignments of [update] *)

Section AssignFields.
Context `{Platform}.

(** Case analysis on the five fields of a patch, and on the truthiness of
    the string fields that are present. *)
Ltac patch_cases dto :=
  destruct dto as [ti de st pr du];
  unfold TasksService.assign_fields, TasksService.assign_string,
    TasksService.assign_enum;
  cbn [UpdateTaskDto.title UpdateTaskDto.description UpdateTaskDto.status
       UpdateTaskDto.priority UpdateTaskDto.dueDate];
  destruct ti as [ti|], de as [de|], st, pr, du as [du|];
  try destruct (truthy (Some ti)); try destruct (truthy (Some de));
  try destruct (truthy (Some du)); reflexivity.

Lemma assign_fields_title dto t :
  title (TasksService.assign_fields dto t)
  = match UpdateTaskDto.title dto with
    | Some s => if truthy (Some s) then s else title t
    | None => title t
    end.
Proof. patch_cases dto. Qed.

Lemma assign_fields_description dto t :
  description (TasksService.assign_fields dto t)
  = if truthy (UpdateTaskDto.description dto) then UpdateTaskDto.description dto
    else description t.
Proof. patch_cases dto. Qed.

Lemma assign_fields_status dto t :
  status (TasksService.assign_fields dto t)
  = default (status t) (UpdateTaskDto.status dto).
Proof. patch_cases dto. Qed.

Lemma assign_fields_priority dto t :
  priority (TasksService.assign_fields dto t)
  = default (priority t) (UpdateTaskDto.priority dto).
Proof. patch_cases dto. Qed.

Lemma assign_fields_dueDate dto t :
  dueDate (TasksService.assign_fields dto t)
  = if truthy (UpdateTaskDto.dueDate dto) then new_Date <$> UpdateTaskDto.dueDate dto
    else dueDate t.
Proof. patch_cases dto. Qed.

Lemma assign_fields_userId dto t : userId (TasksService.assign_fields dto t) = userId t.
Proof. patch_cases dto. Qed.

Lemma assign_fields_id dto t : id (TasksService.assign_fields dto t) = id t.
Proof. patch_cases dto. Qed.
End AssignFields.

(** ** Basic facts about the write phases *)

Section WriteFacts.
Context `{Platform}.

Lemma create_result dto w :
  TasksService.create dto w
  = (Ok (Repository.new_row dto w),
     publish (status_update (id (Repository.new_row dto w))
                            (status (Repository.new_row dto w)))
             (Repository.insert dto w).2).
Proof. reflexivity. Qed.

Lemma update_write_task t dto w :
  let t' := TasksService.assign_fields dto t in
  TasksService.update_write (JsTask t) dto w
  = (Ok t', if decide (status t ≠ status t')
            then publish (status_update (id t') (status t')) (saved t' w)
            else saved t' w).
Proof.
  cbn. unfold TasksService.update_write, Repository.save, mbind, M_bind, bind.
  by destruct (decide _).
Qed.

Lemma update_write_cache v dto w :
  cacheManager (TasksService.update_write v dto w).2 = cacheManager w.
Proof.
  destruct v; try done. rewrite update_write_task. cbn. by destruct (decide _).
Qed.

Lemma update_write_store t dto w :
  tasksRepository (TasksService.update_write (JsTask t) dto w).2
  = <[id t := TasksService.assign_fields dto t]> (tasksRepository w).
Proof.
  rewrite update_write_task. cbn.
  destruct (decide _); unfold publish, saved; cbn; by rewrite assign_fields_id.
Qed.

Lemma update_write_faults v dto w :
  cacheFaults (TasksService.update_write v dto w).2 = cacheFaults w.
Proof.
  destruct v; try done. rewrite update_write_task. cbn. by destruct (decide _).
Qed.

Lemma update_bind i dto w v w1 :
  TasksService.findOne i w = (Ok v, w1) →
  TasksService.update i dto w = TasksService.update_write v dto w1.
Proof. intros E. unfold TasksService.update, mbind, M_bind, bind. by rewrite E. Qed.

Lemma update_throw i dto w e w1 :
  TasksService.findOne i w = (Throw e, w1) →
  TasksService.update i dto w = (Throw e, w1).
Proof. intros E. unfold TasksService.update, mbind, M_bind, bind. by rewrite E. Qed.

Lemma remove_bind i w v w1 :
  TasksService.findOne i w = (Ok v, w1) →
  TasksService.remove i w = TasksService.remove_write v w1.
Proof. intros E. unfold TasksService.remove, mbind, M_bind, bind. by rewrite E. Qed.

Lemma remove_throw i w e w1 :
  TasksService.findOne i w = (Throw e, w1) →
  TasksService.remove i w = (Throw e, w1).
Proof. intros E. unfold TasksService.remove, mbind, M_bind, bind. by rewrite E. Qed.
End WriteFacts.

(** ** Lookups of an absent task *)

(** C10.  For an id with no record in the store and no cache entry (the read
    of its cache key is a miss), [update] and [remove] fail with the NotFound
    exception raised by their initial lookup: the store, the cache and the
    queues are unchanged, and the only call that reached the store is the
    lookup's count query. *)
Theorem update_remove_absent `{Platform} (i : string) (dto : UpdateTaskDto.t) (w : World) :
  tasksRepository w !! i = None →
  cache_miss i w →
  let lookup := TasksService.findOne i w in
  lookup.1 = Throw (not_found i)
  ∧ TasksService.update i dto w = (Throw (not_found i), lookup.2)
  ∧ TasksService.remove i w = (Throw (not_found i), lookup.2)
  ∧ tasksRepository lookup.2 = tasksRepository w
  ∧ cacheManager lookup.2 = cacheManager w
  ∧ queues lookup.2 = queues w
  ∧ dbCalls lookup.2 = dbCalls w ++ [DbCount i].
Proof.
  intros Hr Hm lookup.
  pose proof (findOne_absent i w Hm Hr) as E. subst lookup.
  rewrite (update_throw _ _ _ _ _ E), (remove_throw _ _ _ _ E), E.
  destruct (after_miss_frame i w) as (Hs & Hc & _ & Hq & Hd).
  cbn [fst snd tasksRepository cacheManager queues dbCalls record_call].
  by rewrite Hs, Hc, Hq, Hd.
Qed.

(** An id that was never created, in a system that holds another task. *)
Lemma update_remove_absent_witness :
  let lookup := TasksService.findOne "t9" Demo.seeded in
  TasksService.update "t9" UpdateTaskDto.empty Demo.seeded = (Throw (not_found "t9"), lookup.2)
  ∧ TasksService.remove "t9" Demo.seeded = (Throw (not_found "t9"), lookup.2)
  ∧ tasksRepository lookup.2 = tasksRepository Demo.seeded.
Proof.
  pose proof (update_remove_absent "t9" UpdateTaskDto.empty Demo.seeded
                eq_refl eq_refl) as (_ & Hu & Hr & Hs & _).
  exact (conj Hu (conj Hr Hs)).
Defined.

(** ** Absence is not cached *)

(** C4, as amended.  For an id [x] with no record and no cache entry (the read
    of its cache key is a miss), [findOne] throws NotFound and stores nothing
    in the cache; when a task is then created and the database gives it the
    id [x], the next [findOne x] returns the created task. *)
Theorem absence_not_cached `{Platform} (x : string) (dto : CreateTaskDto.t) (w : World) :
  tasksRepository w !! x = None →
  cache_miss x w →
  generate_id (tasksRepository w) = x →
  let miss := TasksService.findOne x w in
  miss.1 = Throw (not_found x)
  ∧ cacheManager miss.2 = cacheManager w
  ∧ ∃ t w2, TasksService.create dto miss.2 = (Ok t, w2)
            ∧ id t = x
            ∧ tasksRepository w2 !! x = Some t
            ∧ (TasksService.findOne x w2).1 = Ok (JsTask t).
Proof.
  intros Hr Hm Hx miss. subst miss.
  rewrite (findOne_absent x w Hm Hr). cbn [fst snd].
  destruct (after_miss_frame x w) as (Hs & Hc & Hf & _).
  split; [done|]. split; [done|].
  rewrite create_result.
  set (w1 := record_call (DbCount x) (after_miss x w)).
  assert (id (Repository.new_row dto w1) = x) as Hid.
  { unfold w1. cbn [id Repository.new_row tasksRepository record_call]. by rewrite Hs. }
  eexists _, _. split; [reflexivity|]. split; [done|].
  assert (tasksRepository
            (publish (status_update (id (Repository.new_row dto w1))
                                    (status (Repository.new_row dto w1)))
                     (Repository.insert dto w1).2) !! x
          = Some (Repository.new_row dto w1)) as Hrow.
  { cbn [publish saved tasksRepository set_queues Repository.insert snd record_call
         set_tasksRepository]. by rewrite Hid, lookup_insert_eq. }
  split; [done|].
  rewrite (findOne_miss x (Repository.new_row dto w1)); [done| |done].
  apply (cache_miss_ext x w); [| |done];
    cbn [publish Repository.insert snd set_queues record_call set_tasksRepository
         cacheFaults cacheManager]; subst w1;
    cbn [record_call cacheFaults cacheManager]; done.
Qed.

(** An empty system: the lookup of t1 fails, a task is created under t1 and found. *)
Lemma absence_not_cached_witness :
  (TasksService.findOne "t1" Demo.fresh).1 = Throw (not_found "t1")
  ∧ ∃ t w2,
      TasksService.create Demo.bare_request (TasksService.findOne "t1" Demo.fresh).2 = (Ok t, w2)
      ∧ id t = "t1"
      ∧ tasksRepository w2 !! "t1" = Some t
      ∧ (TasksService.findOne "t1" w2).1 = Ok (JsTask t).
Proof.
  pose proof (absence_not_cached "t1" Demo.bare_request Demo.fresh
                eq_refl eq_refl eq_refl) as (Hm & _ & Hc).
  exact (conj Hm Hc).
Defined.

(** C4, the claim as stated fails: a task is created, read (which caches it)
    and removed; its id then has no record, yet [findOne] returns the removed
    task from the cache instead of NotFound. *)
Lemma removed_task_still_served :
  let w := (TasksService.remove "t1"
              (TasksService.findOne "t1"
                 (TasksService.create Demo.bare_request Demo.fresh).2).2).2 in
  tasksRepository w !! "t1" = None
  ∧ (TasksService.findOne "t1" w).1 = Ok (JsTask Demo.created).
Proof. vm_compute. done. Qed.

(** ** Updates from a cold cache *)

Section ColdUpdate.
Context `{Platform}.

Lemma update_cold i dto t w :
  tasksRepository w !! i = Some t →
  cache_miss i w →
  TasksService.update i dto w
  = TasksService.update_write (JsTask t) dto (after_fetch i t w).
Proof. intros Hr Hm. by rewrite (update_bind _ _ _ _ _ (findOne_miss i t w Hm Hr)). Qed.

Lemma update_cold_result i dto t w :
  tasksRepository w !! i = Some t →
  id t = i →
  cache_miss i w →
  ∃ w', TasksService.update i dto w = (Ok (TasksService.assign_fields dto t), w')
        ∧ tasksRepository w' = <[i := TasksService.assign_fields dto t]> (tasksRepository w)
        ∧ cacheManager w' = cacheManager (after_fetch i t w)
        ∧ cacheFaults w' = cacheFaults w.
Proof.
  intros Hr Hi Hm. rewrite (update_cold i dto t w) by done.
  exists (TasksService.update_write (JsTask t) dto (after_fetch i t w)).2. split.
  { by rewrite update_write_task. }
  rewrite update_write_store, update_write_cache, update_write_faults.
  destruct (after_fetch_frame i t w) as (-> & -> & _). by rewrite Hi.
Qed.

Lemma updateStatus_cold i s t w :
  tasksRepository w !! i = Some t →
  id t = i →
  cache_miss i w →
  ∃ w', TasksService.updateStatus i s w = (Ok (TasksService.with_status s t), w')
        ∧ tasksRepository w' = <[i := TasksService.with_status s t]> (tasksRepository w).
Proof.
  intros Hr Hi Hm. unfold TasksService.updateStatus, mbind, M_bind, bind.
  rewrite (findOne_miss i t w Hm Hr). unfold Repository.save. eexists.
  split; [reflexivity|]. cbn.
  destruct (after_fetch_frame i t w) as (-> & _). by rewrite Hi.
Qed.
End ColdUpdate.

(** ** Read after write *)

(** C1, as amended.  [update] never deletes or rewrites a cache entry.  When
    the initial lookup of [update] misses the cache and its cache write goes
    through, then after the update has succeeded the store holds the patched
    task, the cache entry of the id holds the object read before the patch,
    and the next [findOne] returns that object. *)
Theorem update_leaves_stale_entry `{Platform} (i : string) (dto : UpdateTaskDto.t)
    (t : Task) (w : World) :
  tasksRepository w !! i = Some t →
  id t = i →
  cache_miss i w →
  set_fails (cacheFaults w) = false →
  roundtrips t →
  (∀ v w0, cacheManager (TasksService.update_write v dto w0).2 = cacheManager w0)
  ∧ ∃ w', TasksService.update i dto w = (Ok (TasksService.assign_fields dto t), w')
          ∧ tasksRepository w' !! i = Some (TasksService.assign_fields dto t)
          ∧ cacheManager w' !! task_key i = Some (JSON_stringify (JsTask t), 300)
          ∧ (TasksService.findOne i w').1 = Ok (JsTask t).
Proof.
  intros Hr Hi Hm Hs [Hne Hrt]. split; [intros; apply update_write_cache|].
  destruct (update_cold_result i dto t w Hr Hi Hm) as (w' & Hu & Hst & Hcm & Hfl).
  exists w'. split; [done|]. split; [by rewrite Hst, lookup_insert_eq|].
  assert (cacheManager w' !! task_key i = Some (JSON_stringify (JsTask t), 300)) as Hk.
  { rewrite Hcm, after_fetch_cache, Hs. by rewrite lookup_insert_eq. }
  split; [done|].
  erewrite findOne_hit; [done| |done|done|done|done].
  rewrite Hfl. by apply (cache_miss_readable i).
Qed.

(** A title change on the stored sample task, cold cache. *)
Lemma update_leaves_stale_entry_witness :
  ∃ w', TasksService.update "t1" (UpdateTaskDto.mk (Some "Final report") None None None None)
          Demo.seeded
        = (Ok (TasksService.with_title "Final report" Demo.sample), w')
        ∧ (TasksService.findOne "t1" w').1 = Ok (JsTask Demo.sample).
Proof.
  destruct (update_leaves_stale_entry "t1"
              (UpdateTaskDto.mk (Some "Final report") None None None None)
              Demo.sample Demo.seeded eq_refl eq_refl eq_refl eq_refl)
    as (_ & w' & Hu & _ & _ & Hf).
  - split; [discriminate | reflexivity].
  - exists w'. exact (conj Hu Hf).
Defined.

(** C1, the claim as stated fails: the store holds a task titled
    "Write report"; [update] with the title "Final report" succeeds, and the
    next [findOne] still returns the title "Write report", from the cache
    entry that [update] left in place. *)
Lemma read_after_update_is_stale :
  let patch := UpdateTaskDto.mk (Some "Final report") None None None None in
  let r := TasksService.update "t1" patch Demo.seeded in
  r.1 = Ok (TasksService.with_title "Final report" Demo.sample)
  ∧ tasksRepository r.2 !! "t1" = Some (TasksService.with_title "Final report" Demo.sample)
  ∧ (TasksService.findOne "t1" r.2).1 = Ok (JsTask Demo.sample)
  ∧ title Demo.sample = "Write report"
  ∧ is_Some (cacheManager r.2 !! task_key "t1").
Proof. vm_compute. repeat split. by eexists. Qed.

(** ** Which fields an update changes *)

(** C9, as amended.  [update] patches the object its initial lookup returned
    and saves it.  When the lookup misses the cache that object is the stored
    task, and the
    stored task after the update has: for every field of the patch that is
    present and truthy (a non-empty string, an enum member), the patch value
    (the due date converted by [new Date]); for every other field, absent or
    empty in the patch, its prior stored value. *)
Theorem update_changes_truthy_fields `{Platform} (i : string) (dto : UpdateTaskDto.t)
    (t : Task) (w : World) :
  tasksRepository w !! i = Some t →
  id t = i →
  cache_miss i w →
  ∃ t' w',
    TasksService.update i dto w = (Ok t', w')
    ∧ tasksRepository w' !! i = Some t'
    ∧ id t' = id t
    ∧ userId t' = userId t
    ∧ (if truthy (UpdateTaskDto.title dto) then Some (title t') = UpdateTaskDto.title dto
       else title t' = title t)
    ∧ (if truthy (UpdateTaskDto.description dto)
       then description t' = UpdateTaskDto.description dto
       else description t' = description t)
    ∧ match UpdateTaskDto.status dto with
      | Some s => status t' = s
      | None => status t' = status t
      end
    ∧ match UpdateTaskDto.priority dto with
      | Some p => priority t' = p
      | None => priority t' = priority t
      end
    ∧ (if truthy (UpdateTaskDto.dueDate dto)
       then dueDate t' = new_Date <$> UpdateTaskDto.dueDate dto
       else dueDate t' = dueDate t).
Proof.
  intros Hr Hi Hm.
  destruct (update_cold_result i dto t w Hr Hi Hm) as (w' & Hu & Hs & _).
  exists (TasksService.assign_fields dto t), w'.
  split; [done|]. split; [by rewrite Hs, lookup_insert_eq|].
  split; [apply assign_fields_id|]. split; [apply assign_fields_userId|].
  rewrite assign_fields_title, assign_fields_description, assign_fields_status,
    assign_fields_priority, assign_fields_dueDate.
  repeat split.
  - destruct (UpdateTaskDto.title dto) as [s|]; [|done]. by destruct (truthy (Some s)).
  - by destruct (truthy _).
  - by destruct (UpdateTaskDto.status dto).
  - by destruct (UpdateTaskDto.priority dto).
  - by destruct (truthy _).
Qed.

(** A patch with a title, an empty description and a priority: the title and
    the priority are stored, the description and the rest are kept. *)
Lemma update_changes_truthy_fields_witness :
  ∃ t' w',
    TasksService.update "t1" (UpdateTaskDto.mk (Some "Final report") (Some "") None (Some HIGH) None)
      Demo.seeded = (Ok t', w')
    ∧ tasksRepository w' !! "t1" = Some t'
    ∧ title t' = "Final report"
    ∧ description t' = Some "first draft"
    ∧ status t' = COMPLETED
    ∧ priority t' = HIGH
    ∧ dueDate t' = None.
Proof.
  destruct (update_changes_truthy_fields "t1"
              (UpdateTaskDto.mk (Some "Final report") (Some "") None (Some HIGH) None)
              Demo.sample Demo.seeded eq_refl eq_refl eq_refl)
    as (t' & w' & Hu & Hs & _ & _ & Hti & Hde & Hst & Hpr & Hdu).
  exists t', w'. cbn in Hti, Hde, Hst, Hpr, Hdu.
  injection Hti as Hti. auto 10.
Defined.

(** C9, the claim as stated fails: the patch supplies an empty description
    for a task described as "first draft"; [update] succeeds and the stored
    description is still "first draft", not the supplied value. *)
Lemma empty_field_is_not_applied :
  let patch := UpdateTaskDto.mk None (Some "") None None None in
  let r := TasksService.update "t1" patch Demo.seeded in
  UpdateTaskDto.description patch = Some ""
  ∧ r.1 = Ok Demo.sample
  ∧ description <$> (tasksRepository r.2 !! "t1") = Some (Some "first draft").
Proof. vm_compute. done. Qed.

(** ** Status transitions *)

(** C3, as amended.  [update] and [updateStatus] check no transition:
    whenever their initial lookup returns a task, from the cache or from the
    store, whatever the status of that task and whatever the requested one,
    the request succeeds and the task saved under the id of the one looked up
    has the requested status. *)
Theorem every_transition_accepted `{Platform} (i : string) (dto : UpdateTaskDto.t)
    (to : TaskStatus) (t : Task) (w : World) :
  (TasksService.findOne i w).1 = Ok (JsTask t) →
  UpdateTaskDto.status dto = Some to →
  (∃ t' w', TasksService.update i dto w = (Ok t', w')
            ∧ tasksRepository w' !! id t = Some t'
            ∧ status t' = to)
  ∧ (∃ t' w', TasksService.updateStatus i to w = (Ok t', w')
              ∧ tasksRepository w' !! id t = Some t'
              ∧ status t' = to).
Proof.
  intros Hl Hto. destruct (TasksService.findOne i w) as [r w1] eqn:Hf.
  cbn in Hl. subst r. split.
  - exists (TasksService.assign_fields dto t),
      (TasksService.update_write (JsTask t) dto w1).2.
    split; [by rewrite (update_bind i dto w _ _ Hf), update_write_task|].
    split; [by rewrite update_write_store, lookup_insert_eq|].
    by rewrite assign_fields_status, Hto.
  - unfold TasksService.updateStatus, mbind, M_bind, bind. rewrite Hf.
    eexists _, _. split; [reflexivity|]. cbn. by rewrite lookup_insert_eq.
Qed.

(** COMPLETED to IN_PROGRESS, through either method, the lookup served from
    the cache that an earlier read filled. *)
Lemma every_transition_accepted_witness :
  let w := (TasksService.findOne "t1" Demo.seeded).2 in
  cacheManager w !! task_key "t1" = Some (JSON_stringify (JsTask Demo.sample), 300)
  ∧ (∃ t' w', TasksService.update "t1" (UpdateTaskDto.mk None None (Some IN_PROGRESS) None None)
                w = (Ok t', w')
              ∧ tasksRepository w' !! "t1" = Some t'
              ∧ status t' = IN_PROGRESS)
  ∧ (∃ t' w', TasksService.updateStatus "t1" IN_PROGRESS w = (Ok t', w')
              ∧ tasksRepository w' !! "t1" = Some t'
              ∧ status t' = IN_PROGRESS).
Proof.
  split; [reflexivity|].
  exact (every_transition_accepted "t1"
           (UpdateTaskDto.mk None None (Some IN_PROGRESS) None None) IN_PROGRESS
           Demo.sample (TasksService.findOne "t1" Demo.seeded).2 eq_refl eq_refl).
Defined.

(** C3, the claim as stated fails: the transition COMPLETED to PENDING is not
    among the allowed ones, and [update] accepts it: the stored task becomes
    PENDING (and a status message is published). *)
Lemma completed_to_pending_accepted :
  let patch := UpdateTaskDto.mk None None (Some PENDING) None None in
  let r := TasksService.update "t1" patch Demo.seeded in
  status Demo.sample = COMPLETED
  ∧ spec_allowed_transition COMPLETED PENDING = false
  ∧ r.1 = Ok (TasksService.with_status PENDING Demo.sample)
  ∧ status <$> (tasksRepository r.2 !! "t1") = Some PENDING.
Proof. vm_compute. done. Qed.

(** ** What the requests leave untouched *)

Section Frames.
Context `{Platform}.

Lemma fetcher_frame i w :
  tasksRepository (TasksService.fetcher i w).2 = tasksRepository w
  ∧ cacheManager (TasksService.fetcher i w).2 = cacheManager w
  ∧ cacheFaults (TasksService.fetcher i w).2 = cacheFaults w
  ∧ queues (TasksService.fetcher i w).2 = queues w.
Proof.
  destruct (tasksRepository w !! i) as [t|] eqn:Hr.
  - by rewrite (fetcher_present i t).
  - by rewrite fetcher_absent.
Qed.

Lemma findOne_frame i w :
  tasksRepository (TasksService.findOne i w).2 = tasksRepository w
  ∧ cacheFaults (TasksService.findOne i w).2 = cacheFaults w
  ∧ queues (TasksService.findOne i w).2 = queues w.
Proof.
  unfold TasksService.findOne, CacheService.getOrSet, mbind, M_bind, bind, Logger.log.
  destruct (get_frame ("task:" +:+ i) w) as (Hr & _ & Hf & Hq & _).
  destruct (CacheService.get ("task:" +:+ i) w) as [[v|e] w1]; cbn in *; [|done].
  destruct (is_null v); cbn; [|done].
  destruct (fetcher_frame i (log_entry debug ("Cache POPULATE: " +:+ "task:" +:+ i) w1))
    as (Hr' & _ & Hf' & Hq').
  destruct (TasksService.fetcher i _) as [[v'|e] w2]; cbn in *; [|by rewrite Hr', Hf', Hq'].
  rewrite set_total. cbn.
  destruct (after_set_frame ("task:" +:+ i) v' 300 w2) as (-> & -> & -> & _).
  by rewrite Hr', Hf', Hq'.
Qed.

Lemma update_write_publishes v dto w :
  ∃ js, publishes w (TasksService.update_write v dto w).2 js
        ∧ Forall (λ j, ∃ i s, j = status_update i s) js.
Proof.
  destruct v; try (by exists []).
  rewrite update_write_task. cbn. destruct (decide _).
  - eexists [_]. split; [reflexivity|]. repeat constructor. eauto.
  - by exists [].
Qed.
End Frames.

(** ** Notifications *)

(** C6, as amended.  [create] publishes a status message for every created
    task, whatever its status: the request always succeeds and appends to the
    queue 'task-processing' one message with the id and the status of the
    saved task, the status being the requested one or the default. *)
Theorem create_always_publishes `{Platform} (dto : CreateTaskDto.t) (w : World) :
  ∃ t w',
    TasksService.create dto w = (Ok t, w')
    ∧ status t = default default_status (CreateTaskDto.status dto)
    ∧ publishes w w' [status_update (id t) (status t)]
    ∧ Queue.jobs "task-processing" w'
      = Queue.jobs "task-processing" w ++ [status_update (id t) (status t)].
Proof.
  rewrite create_result. eexists _, _. split; [reflexivity|].
  split; [done|]. split; [done|].
  unfold publish, Queue.jobs at 1. cbn. by rewrite lookup_insert_eq.
Qed.

(** C6, the claim as stated fails: a create request that names no status
    yields a task in the default status PENDING, and a message is published
    for it all the same. *)
Lemma create_at_default_status_publishes :
  let r := TasksService.create Demo.bare_request Demo.fresh in
  r.1 = Ok Demo.created
  ∧ status Demo.created = default_status
  ∧ Queue.jobs "task-processing" Demo.fresh = []
  ∧ Queue.jobs "task-processing" r.2 = [status_update "t1" PENDING].
Proof. vm_compute. done. Qed.

(** C7, as amended.  Whatever a request of the service publishes goes to the
    queue 'task-processing' and is a job named 'task-status-update' whose
    payload has exactly the two fields taskId (a string) and status (a member
    of the status enum); it has no field occurredAt.  [create] and [update]
    publish at most one such message; [findOne], [remove] and [updateStatus]
    publish nothing. *)
Theorem published_messages `{Platform} (dto : CreateTaskDto.t) (patch : UpdateTaskDto.t)
    (i : string) (s : TaskStatus) (w : World) :
  (∃ js, publishes w (TasksService.create dto w).2 js
         ∧ Forall (λ j, ∃ i s, j = status_update i s) js)
  ∧ (∃ js, publishes w (TasksService.update i patch w).2 js
           ∧ Forall (λ j, ∃ i s, j = status_update i s) js)
  ∧ publishes w (TasksService.findOne i w).2 []
  ∧ publishes w (TasksService.remove i w).2 []
  ∧ publishes w (TasksService.updateStatus i s w).2 []
  ∧ name (status_update i s) = "task-status-update"
  ∧ data (status_update i s) = [("taskId", JsStr i); ("status", JsStatus s)]
  ∧ field "taskId" (data (status_update i s)) = Some (JsStr i)
  ∧ field "status" (data (status_update i s)) = Some (JsStatus s)
  ∧ field "occurredAt" (data (status_update i s)) = None.
Proof.
  destruct (findOne_frame i w) as (Hr & Hf & Hq).
  split; [|split; [|split; [|split; [|split]]]].
  - rewrite create_result. eexists [_]. split; [reflexivity|].
    repeat constructor. eauto.
  - unfold TasksService.update, mbind, M_bind, bind.
    destruct (TasksService.findOne i w) as [[v|e] w1]; cbn in *; [|by exists []].
    destruct (update_write_publishes v patch w1) as (js & Hp & Hjs).
    exists js. split; [|done]. unfold publishes, Queue.jobs in *. by rewrite <- Hq.
  - done.
  - unfold TasksService.remove, mbind, M_bind, bind.
    destruct (TasksService.findOne i w) as [[v|e] w1]; cbn in *; [|done].
    by destruct v.
  - unfold TasksService.updateStatus, mbind, M_bind, bind.
    destruct (TasksService.findOne i w) as [[v|e] w1]; cbn in *; [|done].
    by destruct v.
  - by vm_compute.
Qed.

(** C7, the claim as stated fails: the message [create] publishes carries
    taskId and status and no occurredAt. *)
Lemma published_payload_lacks_occurredAt :
  let r := TasksService.create Demo.bare_request Demo.fresh in
  Queue.jobs "task-processing" r.2
  = [mkJob "task-status-update" [("taskId", JsStr "t1"); ("status", JsStatus PENDING)]]
  ∧ field "occurredAt" [("taskId", JsStr "t1"); ("status", JsStatus PENDING)] = None.
Proof. vm_compute. done. Qed.

(** ** Cache failures *)

(** C8, as amended.  A [set] whose backend call fails is caught inside [set]
    and logged as an error; the cache is left as it was and [set] returns
    normally, so [getOrSet] still returns the fetched value to its caller.  A
    stored string that fails to deserialise is not an error and not a miss:
    [get] returns the raw string as a hit. *)
Theorem cache_failures_recovered `{Platform} (key : string) (value : JsValue) (ttl : Z)
    (w : World) :
  (∃ w', CacheService.set key value ttl w = (Ok (), w')
         ∧ tasksRepository w' = tasksRepository w
         ∧ queues w' = queues w
         ∧ if set_fails (cacheFaults w)
           then cacheManager w' = cacheManager w
                ∧ logger w' = logger w
                              ++ [(error, "Cache SET ERROR: " +:+ CacheService.buildKey key)]
           else cacheManager w'
                = <[CacheService.buildKey key := (serialise value, ttl)]> (cacheManager w))
  ∧ (∀ fetcher w0 w1,
       CacheService.get key w = (Ok JsNull, w0) →
       fetcher (log_entry debug ("Cache POPULATE: " +:+ key) w0) = (Ok value, w1) →
       (CacheService.getOrSet key fetcher ttl w).1 = Ok value)
  ∧ (∀ d ttl',
       get_fails (cacheFaults w) = false →
       cacheManager w !! CacheService.buildKey key = Some (d, ttl') →
       d ≠ "" →
       JSON_parse d = None →
       (CacheService.get key w).1 = Ok (JsStr d)
       ∧ (CacheService.has key w).1 = Ok true).
Proof.
  split; [|split].
  - exists (after_set key value ttl w). split; [apply set_total|].
    destruct (after_set_frame key value ttl w) as (-> & _ & -> & _).
    split; [done|]. split; [done|]. rewrite after_set_cache.
    destruct (set_fails (cacheFaults w)) eqn:Hs; [|done]. split; [done|].
    unfold after_set. by rewrite set_fault.
  - intros fetcher w0 w1 Hget Hfetch.
    unfold CacheService.getOrSet, mbind, M_bind, bind, Logger.log.
    rewrite Hget. cbn. rewrite Hfetch. by rewrite set_total.
  - intros d ttl' Hg Hc Hd Hp. unfold CacheService.has, mbind, M_bind, bind.
    rewrite (get_hit key w d ttl') by done. by rewrite Hp.
Qed.

(** C8, the claim as stated fails: the cache holds the string hello, which
    is not JSON; [get] does not report a miss but returns the string. *)
Lemma unparsable_entry_is_a_hit :
  let w := (CacheService.set "greeting" (JsStr "hello") 300 Demo.fresh).2 in
  cacheManager w !! "app:greeting" = Some ("hello", 300)
  ∧ JSON_parse "hello" = None
  ∧ (CacheService.get "greeting" w).1 = Ok (JsStr "hello")
  ∧ (CacheService.has "greeting" w).1 = Ok true.
Proof. vm_compute. done. Qed.

(** ** Concurrent writers *)

Section Writers.
Context `{Platform}.

Lemma remove_write_task t w :
  TasksService.remove_write (JsTask t) w
  = (Ok (), record_call (DbRemove (id t))
              (set_tasksRepository (delete (id t) (tasksRepository w)) w)).
Proof. reflexivity. Qed.

Lemma update_write_ok t dto w :
  TasksService.update_write (JsTask t) dto w
  = (Ok (TasksService.assign_fields dto t), (TasksService.update_write (JsTask t) dto w).2).
Proof. by rewrite update_write_task. Qed.

Lemma findOne_warm i t w :
  get_fails (cacheFaults w) = false →
  cacheManager w !! task_key i = Some (JSON_stringify (JsTask t), 300) →
  roundtrips t →
  TasksService.findOne i w
  = (Ok (JsTask t), log_entry debug ("Cache HIT: " +:+ task_key i) w).
Proof.
  intros Hg Hc [Hne Hrt].
  by apply (findOne_hit i w (JSON_stringify (JsTask t)) 300 (JsTask t)).
Qed.

Lemma after_fetch_warm i t w :
  cache_miss i w →
  set_fails (cacheFaults w) = false →
  get_fails (cacheFaults (after_fetch i t w)) = false
  ∧ cacheManager (after_fetch i t w) !! task_key i = Some (JSON_stringify (JsTask t), 300).
Proof.
  intros Hm Hs. destruct (after_fetch_frame i t w) as (_ & -> & _).
  split; [by apply (cache_miss_readable i)|].
  rewrite after_fetch_cache, Hs. by rewrite lookup_insert_eq.
Qed.
End Writers.

(** C2, as amended.  The service keeps no version and checks none: once the
    initial lookup has returned a task, the write phase of [update] and of
    [remove] always succeeds.  Of two updates that both read the task before
    either writes, both succeed, each returning the task with its own changes;
    neither receives a conflict. *)
Theorem writes_never_conflict `{Platform} (i : string) (dtoA dtoB : UpdateTaskDto.t)
    (t : Task) (w : World) :
  tasksRepository w !! i = Some t →
  id t = i →
  cache_miss i w →
  set_fails (cacheFaults w) = false →
  roundtrips t →
  (∀ dto w0, (TasksService.update_write (JsTask t) dto w0).1
             = Ok (TasksService.assign_fields dto t))
  ∧ (∀ w0, (TasksService.remove_write (JsTask t) w0).1 = Ok ())
  ∧ (Interleaving.concurrent_updates i dtoA dtoB w).1
    = Ok (Ok (TasksService.assign_fields dtoA t),
          Ok (TasksService.assign_fields dtoB t)).
Proof.
  intros Hr Hi Hm Hs Hrt.
  split; [intros; by rewrite update_write_task|]. split; [done|].
  destruct (after_fetch_warm i t w Hm Hs) as (Hg1 & Hc1).
  unfold Interleaving.concurrent_updates, Interleaving.attempt, Interleaving.resume,
    mbind, M_bind, bind, mret, M_ret, ret.
  rewrite (findOne_miss i t w Hm Hr).
  rewrite (findOne_warm i t _ Hg1 Hc1 Hrt).
  rewrite (update_write_ok t dtoA). by rewrite (update_write_ok t dtoB).
Qed.

(** One writer changes the title, the other the priority. *)
Lemma writes_never_conflict_witness :
  (Interleaving.concurrent_updates "t1"
     (UpdateTaskDto.mk (Some "Final report") None None None None)
     (UpdateTaskDto.mk None None None (Some HIGH) None) Demo.seeded).1
  = Ok (Ok (TasksService.with_title "Final report" Demo.sample),
        Ok (TasksService.with_priority HIGH Demo.sample)).
Proof.
  destruct (writes_never_conflict "t1"
              (UpdateTaskDto.mk (Some "Final report") None None None None)
              (UpdateTaskDto.mk None None None (Some HIGH) None)
              Demo.sample Demo.seeded eq_refl eq_refl eq_refl eq_refl)
    as (_ & _ & Hc).
  - split; [discriminate | reflexivity].
  - exact Hc.
Defined.

(** C2, the claim as stated fails: two updates read the same task, then both
    write; neither receives a conflict, both succeed. *)
Lemma concurrent_updates_both_succeed :
  let r := Interleaving.concurrent_updates "t1"
             (UpdateTaskDto.mk (Some "Final report") None None None None)
             (UpdateTaskDto.mk None None None (Some HIGH) None) Demo.seeded in
  r.1 = Ok (Ok (TasksService.with_title "Final report" Demo.sample),
            Ok (TasksService.with_priority HIGH Demo.sample)).
Proof. vm_compute. done. Qed.

(** ** Single flight *)

Section Segments.
Context `{Platform}.

(** The three segments of a request, run back to back, are [findOne]. *)
Lemma findOne_segments i w :
  Interleaving.run_schedule i [0; 0; 0]%nat ([Interleaving.AtGet], w)
  = ([Interleaving.Done (TasksService.findOne i w).1], (TasksService.findOne i w).2).
Proof.
  unfold Interleaving.run_schedule, Interleaving.sched_step, Interleaving.findOne_step,
    TasksService.findOne, CacheService.getOrSet, mbind, M_bind, bind, Logger.log.
  cbn [foldl lookup list_lookup fst snd Interleaving.step].
  destruct (CacheService.get ("task:" +:+ i) w) as [[v|e] w1]; [|done].
  destruct (is_null v); cbn [negb]; [|done].
  cbn [insert list_insert fst snd lookup list_lookup Interleaving.step].
  destruct (TasksService.fetcher i _) as [[v'|e] w2]; [|done].
  cbn [insert list_insert fst snd lookup list_lookup Interleaving.step].
  rewrite set_total. done.
Qed.






End Segments.

Section SingleFlight.
Context `{Platform}.


End SingleFlight.




(** * Further properties *)

(** ** The cache service as a key-value store *)

Section CacheStore.
Context `{Platform}.

Lemma get_result key w :
  (CacheService.get key w).1
  = if get_fails (cacheFaults w) then Throw (CacheBackendError OpGet)
    else Ok (read_back (fst <$> cacheManager w !! CacheService.buildKey key)).
Proof.
  destruct (get_fails (cacheFaults w)) eqn:Hg; [by rewrite get_fault|].
  destruct (cacheManager w !! CacheService.buildKey key) as [[d ttl]|] eqn:Hc;
    [|by rewrite get_miss].
  destruct (decide (d = "")) as [->|Hd].
  - unfold CacheService.get, CacheManager.get, mbind, M_bind, bind. by rewrite Hg, Hc.
  - rewrite (get_hit key w d ttl) by done. cbn. by destruct d.
Qed.

Lemma has_result key w :
  (CacheService.has key w).1
  = match (CacheService.get key w).1 with
    | Ok v => Ok (negb (is_null v))
    | Throw e => Throw e
    end.
Proof.
  unfold CacheService.has, mbind, M_bind, bind.
  by destruct (CacheService.get key w) as [[v|e] w1].
Qed.

Lemma buildKey_inj key key' :
  CacheService.buildKey key = CacheService.buildKey key' → key = key'.
Proof.
  unfold CacheService.buildKey. intros E.
  apply (String.app_inj _) in E. by apply (String.app_inj _) in E.
Qed.

Lemma delete_total key w :
  (CacheService.delete key w).1 = (if del_fails (cacheFaults w)
                                   then Throw (CacheBackendError OpDel) else Ok ())
  ∧ cacheManager (CacheService.delete key w).2
    = (if del_fails (cacheFaults w) then cacheManager w
       else delete (CacheService.buildKey key) (cacheManager w))
  ∧ cacheFaults (CacheService.delete key w).2 = cacheFaults w.
Proof.
  destruct (del_fails (cacheFaults w)) eqn:Hd.
  - by rewrite delete_fault.
  - by rewrite delete_ok.
Qed.
End CacheStore.

(** The sample board stores every task under its id. *)
Lemma board_wf : store_wf Samples.board.
Proof.
  intros k t Hk. unfold Samples.board in Hk. cbn in Hk.
  repeat (apply lookup_insert_Some in Hk as [[<- <-]|[_ Hk]]; [done|]).
  done.
Qed.

(** X1.  A value that is not a string and that JSON serialises to a non-empty
    text which parses back to it is read back as written: after [set], [get]
    of the key returns the value, whatever the key held before, and [has]
    tells whether the value is other than null. *)
Theorem set_then_get `{Platform} (key : string) (value : JsValue) (ttl : Z) (w : World) :
  set_fails (cacheFaults w) = false →
  get_fails (cacheFaults w) = false →
  serialise value = JSON_stringify value →
  JSON_stringify value ≠ "" →
  JSON_parse (JSON_stringify value) = Some value →
  let w' := (CacheService.set key value ttl w).2 in
  (CacheService.get key w').1 = Ok value
  ∧ (CacheService.has key w').1 = Ok (negb (is_null value))
  ∧ cacheManager w' !! CacheService.buildKey key = Some (JSON_stringify value, ttl).
Proof.
  intros Hs Hg Hser Hne Hrt w'. subst w'.
  assert (cacheManager (CacheService.set key value ttl w).2 !! CacheService.buildKey key
          = Some (JSON_stringify value, ttl)) as Hc.
  { rewrite set_ok by done. cbn. by rewrite lookup_insert_eq, Hser. }
  assert ((CacheService.get key (CacheService.set key value ttl w).2).1 = Ok value) as Hget.
  { rewrite get_result, Hc. rewrite set_ok by done. cbn [snd cacheFaults log_entry
      set_cacheManager]. rewrite Hg. cbn [fmap option_fmap option_map fst read_back].
    destruct (JSON_stringify value) eqn:E; [done|]. by rewrite Hrt. }
  split; [done|]. split; [|done]. by rewrite has_result, Hget.
Qed.

(** The sample task, written over an entry that held something else. *)
Lemma set_then_get_witness :
  let w := (CacheService.set "k" (JsStr "old") 60 Demo.fresh).2 in
  (CacheService.get "k" (CacheService.set "k" (JsTask Demo.sample) 300 w).2).1
  = Ok (JsTask Demo.sample)
  ∧ (CacheService.has "k" (CacheService.set "k" (JsTask Demo.sample) 300 w).2).1 = Ok true.
Proof.
  destruct (set_then_get "k" (JsTask Demo.sample) 300
              (CacheService.set "k" (JsStr "old") 60 Demo.fresh).2
              eq_refl eq_refl eq_refl) as (Hg & Hh & _).
  - discriminate.
  - reflexivity.
  - exact (conj Hg Hh).
Defined.

(** X2.  A string value is stored as it is, and read back through
    [JSON.parse]: after [set] of the string [s], [get] returns a miss when
    [s] is empty, the parsed value when [s] happens to be JSON text, and [s]
    itself only when [s] is not JSON. *)
Theorem string_read_back `{Platform} (key s : string) (ttl : Z) (w : World) :
  set_fails (cacheFaults w) = false →
  get_fails (cacheFaults w) = false →
  (CacheService.get key (CacheService.set key (JsStr s) ttl w).2).1
  = Ok (if decide (s = "") then JsNull
        else match JSON_parse s with
             | Some v => v
             | None => JsStr s
             end).
Proof.
  intros Hs Hg. rewrite get_result. rewrite set_ok by done.
  cbn [snd cacheFaults cacheManager log_entry set_cacheManager]. rewrite Hg.
  rewrite lookup_insert_eq. cbn [fmap option_fmap option_map fst serialise read_back].
  destruct s as [|a s]; [done|]. by rewrite decide_False.
Qed.

(** A string that is the serialisation of a task comes back as the task, not
    as the string; a string that is no JSON comes back as written. *)
Lemma string_read_back_witness :
  (CacheService.get "k"
     (CacheService.set "k" (JsStr (Demo.stringify (JsTask Demo.sample))) 300 Demo.fresh).2).1
  = Ok (JsTask Demo.sample)
  ∧ (CacheService.get "k" (CacheService.set "k" (JsStr "hello") 300 Demo.fresh).2).1
    = Ok (JsStr "hello")
  ∧ (CacheService.get "k" (CacheService.set "k" (JsStr "") 300 Demo.fresh).2).1
    = Ok JsNull.
Proof.
  split; [|split].
  - exact (string_read_back "k" (Demo.stringify (JsTask Demo.sample)) 300 Demo.fresh
             eq_refl eq_refl).
  - exact (string_read_back "k" "hello" 300 Demo.fresh eq_refl eq_refl).
  - exact (string_read_back "k" "" 300 Demo.fresh eq_refl eq_refl).
Defined.

(** X3.  [delete] removes the entry: afterwards [get] of the key is a miss
    and [has] is false; deleting a key that has no entry succeeds and leaves
    the cache as it was. *)
Theorem delete_then_get `{Platform} (key : string) (w : World) :
  del_fails (cacheFaults w) = false →
  get_fails (cacheFaults w) = false →
  let r := CacheService.delete key w in
  r.1 = Ok ()
  ∧ (CacheService.get key r.2).1 = Ok JsNull
  ∧ (CacheService.has key r.2).1 = Ok false
  ∧ (cacheManager w !! CacheService.buildKey key = None → cacheManager r.2 = cacheManager w).
Proof.
  intros Hd Hg r. subst r. destruct (delete_total key w) as (Hr & Hc & Hf).
  rewrite Hd in Hr, Hc.
  assert ((CacheService.get key (CacheService.delete key w).2).1 = Ok JsNull) as Hget.
  { by rewrite get_result, Hf, Hg, Hc, lookup_delete_eq. }
  split; [done|]. split; [done|]. split; [by rewrite has_result, Hget|].
  intros Hn. rewrite Hc. by apply delete_id.
Qed.

(** An entry is written, then deleted, then deleted again. *)
Lemma delete_then_get_witness :
  let w := (CacheService.set "k" (JsStr "hello") 300 Demo.fresh).2 in
  (CacheService.has "k" w).1 = Ok true
  ∧ (CacheService.has "k" (CacheService.delete "k" w).2).1 = Ok false
  ∧ (CacheService.delete "k" (CacheService.delete "k" w).2).1 = Ok ().
Proof.
  pose proof (delete_then_get "k" (CacheService.set "k" (JsStr "hello") 300 Demo.fresh).2
                eq_refl eq_refl) as (_ & _ & Hh & _).
  split; [reflexivity|]. split; [exact Hh|reflexivity].
Defined.

(** X4.  Keys do not interfere: writing or deleting one key changes nothing
    in what [get] returns for another key, whether or not the backend call
    goes through. *)
Theorem other_keys_untouched `{Platform} (key key' : string) (value : JsValue) (ttl : Z)
    (w : World) :
  key ≠ key' →
  (CacheService.get key' (CacheService.set key value ttl w).2).1
  = (CacheService.get key' w).1
  ∧ (CacheService.get key' (CacheService.delete key w).2).1
    = (CacheService.get key' w).1.
Proof.
  intros Hk.
  assert (CacheService.buildKey key ≠ CacheService.buildKey key') as Hb
    by (intros E; by apply buildKey_inj in E).
  split; rewrite !get_result.
  - fold (after_set key value ttl w). rewrite after_set_cache.
    destruct (after_set_frame key value ttl w) as (_ & -> & _).
    destruct (set_fails (cacheFaults w)); [done|]. by rewrite lookup_insert_ne.
  - destruct (delete_total key w) as (_ & -> & ->).
    destruct (del_fails (cacheFaults w)); [done|]. by rewrite lookup_delete_ne.
Qed.

Lemma other_keys_untouched_witness :
  let w := (CacheService.set "a" (JsStr "hello") 300 Demo.fresh).2 in
  (CacheService.get "a" (CacheService.set "b" (JsStr "other") 300 w).2).1 = Ok (JsStr "hello")
  ∧ (CacheService.get "a" (CacheService.delete "b" w).2).1 = Ok (JsStr "hello").
Proof.
  exact (other_keys_untouched "b" "a" (JsStr "other") 300
           (CacheService.set "a" (JsStr "hello") 300 Demo.fresh).2 ltac:(discriminate)).
Defined.

(** ** Populating through getOrSet *)

(** X5.  When [has(key)] is true, [getOrSet] is [get]: it returns the cached
    value, neither runs the fetcher nor writes to the cache, so its outcome is
    the same for every fetcher. *)
Theorem getOrSet_on_hit `{Platform} (key : string) (fetcher other : M JsValue) (ttl : Z)
    (w : World) :
  (CacheService.has key w).1 = Ok true →
  CacheService.getOrSet key fetcher ttl w = CacheService.get key w
  ∧ CacheService.getOrSet key fetcher ttl w = CacheService.getOrSet key other ttl w
  ∧ cacheManager (CacheService.getOrSet key fetcher ttl w).2 = cacheManager w
  ∧ dbCalls (CacheService.getOrSet key fetcher ttl w).2 = dbCalls w.
Proof.
  intros Hh. rewrite has_result in Hh.
  assert (∀ f, CacheService.getOrSet key f ttl w = CacheService.get key w) as E.
  { intros f. unfold CacheService.getOrSet, mbind, M_bind, bind.
    destruct (CacheService.get key w) as [[v|e] w1]; cbn in Hh; [|done].
    injection Hh as Hh. by rewrite Hh. }
  rewrite !E. destruct (get_frame key w) as (_ & Hc & _ & _ & Hd). done.
Qed.

(** The key holds a string; a fetcher that would throw is never run. *)
Lemma getOrSet_on_hit_witness :
  let w := (CacheService.set "k" (JsStr "hello") 300 Demo.fresh).2 in
  CacheService.getOrSet "k" (throw TypeError) 300 w = CacheService.get "k" w
  ∧ (CacheService.getOrSet "k" (throw TypeError) 300 w).1 = Ok (JsStr "hello").
Proof.
  pose proof (getOrSet_on_hit "k" (throw TypeError) (mret JsNull) 300
                (CacheService.set "k" (JsStr "hello") 300 Demo.fresh).2 eq_refl)
    as (Hg & _).
  split; [exact Hg|]. rewrite Hg. reflexivity.
Defined.

(** X6.  A null result is written to the cache but never served from it: when
    the fetcher returns null, [getOrSet] returns null and stores its
    serialisation, and the entry reads back as a miss, so [has] stays false
    and the next [getOrSet] runs its fetcher again. *)
Theorem null_is_not_served `{Platform} (key : string) (fetcher next : M JsValue) (ttl : Z)
    (w w0 w1 : World) :
  CacheService.get key w = (Ok JsNull, w0) →
  fetcher (log_entry debug ("Cache POPULATE: " +:+ key) w0) = (Ok JsNull, w1) →
  set_fails (cacheFaults w1) = false →
  get_fails (cacheFaults w1) = false →
  JSON_parse (JSON_stringify JsNull) = Some JsNull →
  let r := CacheService.getOrSet key fetcher ttl w in
  r.1 = Ok JsNull
  ∧ cacheManager r.2 !! CacheService.buildKey key = Some (JSON_stringify JsNull, ttl)
  ∧ (CacheService.has key r.2).1 = Ok false
  ∧ CacheService.getOrSet key next ttl r.2
    = (v ← next; CacheService.set key v ttl;; mret v)
        (log_entry debug ("Cache POPULATE: " +:+ key) (CacheService.get key r.2).2).
Proof.
  intros Hget Hf Hs Hg Hp r.
  assert (r = (Ok JsNull, after_set key JsNull ttl w1)) as ->.
  { subst r. unfold CacheService.getOrSet, mbind, M_bind, bind, Logger.log.
    rewrite Hget. cbn [negb is_null]. rewrite Hf. by rewrite set_total. }
  cbn [fst snd].
  assert (cacheManager (after_set key JsNull ttl w1) !! CacheService.buildKey key
          = Some (JSON_stringify JsNull, ttl)) as Hc.
  { rewrite after_set_cache, Hs. by rewrite lookup_insert_eq. }
  assert ((CacheService.get key (after_set key JsNull ttl w1)).1 = Ok JsNull) as Hmiss.
  { rewrite get_result, Hc. destruct (after_set_frame key JsNull ttl w1) as (_ & -> & _).
    rewrite Hg. cbn. destruct (JSON_stringify JsNull); [done|]. by rewrite Hp. }
  split; [done|]. split; [done|]. split; [by rewrite has_result, Hmiss|].
  unfold CacheService.getOrSet, mbind, M_bind, bind, Logger.log.
  destruct (CacheService.get key (after_set key JsNull ttl w1)) as [r' w2].
  cbn in Hmiss. by subst r'.
Qed.

(** The fetcher finds nothing and returns null, twice. *)
Lemma null_is_not_served_witness :
  let r := @CacheService.getOrSet Samples.platform "k" (mret JsNull) 300 Demo.fresh in
  r.1 = Ok JsNull
  ∧ cacheManager r.2 !! "app:k" = Some ("null", 300)
  ∧ (@CacheService.has Samples.platform "k" r.2).1 = Ok false.
Proof.
  pose proof (@null_is_not_served Samples.platform "k" (mret JsNull) (mret JsNull) 300
                Demo.fresh _ _ eq_refl eq_refl eq_refl eq_refl eq_refl)
    as (Hr & Hc & Hh & _).
  exact (conj Hr (conj Hc Hh)).
Defined.

(** X7.  [clear] on a store that has a [reset] empties the cache, and with
    it every stale entry: afterwards [findOne] is served by the store, it
    returns the stored task of an id that has one and throws NotFound for an
    id that has none, whatever the cache held.  On a store without [reset],
    [clear] throws its own error and the cache keeps every entry. *)
Theorem clear_empties_the_cache `{Platform} (i : string) (w : World) :
  get_fails (cacheFaults w) = false →
  (let r := CacheAdmin.clear (Some CacheAdmin.reset) w in
   r.1 = inr ()
   ∧ cacheManager r.2 = ∅
   ∧ tasksRepository r.2 = tasksRepository w
   ∧ queues r.2 = queues w
   ∧ (TasksService.findOne i r.2).1
     = match tasksRepository w !! i with
       | Some t => Ok (JsTask t)
       | None => Throw (not_found i)
       end)
  ∧ (let r := CacheAdmin.clear None w in
     r.1 = inl (CacheAdmin.NotSupported "Cache store does not support reset()")
     ∧ cacheManager r.2 = cacheManager w
     ∧ (TasksService.findOne i r.2).1 = (TasksService.findOne i w).1).
Proof.
  intros Hg. split.
  - cbn [CacheAdmin.clear CacheAdmin.reset fst snd].
    set (w' := log_entry warn "Cache CLEARED: All keys removed" (set_cacheManager ∅ w)).
    assert (cache_miss i w') as Hm by (by apply cold_cache_miss).
    split; [done|]. split; [done|]. split; [done|]. split; [done|].
    destruct (tasksRepository w !! i) as [t|] eqn:Hr.
    + by rewrite (findOne_miss i t w' Hm Hr).
    + by rewrite (findOne_absent i w' Hm Hr).
  - cbn [CacheAdmin.clear fst snd]. split; [done|]. split; [done|].
    set (w' := log_entry error "reset() not supported by this cache store" w).
    unfold TasksService.findOne, CacheService.getOrSet, mbind, M_bind, bind, Logger.log.
    pose proof (get_result_ext ("task:" +:+ i) w w' eq_refl eq_refl) as E.
    destruct (get_frame ("task:" +:+ i) w) as (Hr & Hc & Hf & _).
    destruct (get_frame ("task:" +:+ i) w') as (Hr' & Hc' & Hf' & _).
    destruct (CacheService.get ("task:" +:+ i) w) as [r1 w1].
    destruct (CacheService.get ("task:" +:+ i) w') as [r2 w2].
    cbn in E, Hr, Hc, Hf, Hr', Hc', Hf'. subst r2.
    destruct r1 as [v|e]; [|done]. destruct (is_null v); cbn [negb]; [|done].
    destruct (tasksRepository w !! i) as [t|] eqn:Hs.
    + rewrite !(fetcher_present i t) by (cbn; congruence). by rewrite !set_total.
    + by rewrite !fetcher_absent by (cbn; congruence).
Qed.

(** A task is updated, which leaves the cache stale; after [clear] the read
    returns the updated task. *)
Lemma clear_empties_the_cache_witness :
  let patch := UpdateTaskDto.mk (Some "Final report") None None None None in
  let w := (TasksService.update "t1" patch Demo.seeded).2 in
  (TasksService.findOne "t1" w).1 = Ok (JsTask Demo.sample)
  ∧ (TasksService.findOne "t1" (CacheAdmin.clear (Some CacheAdmin.reset) w).2).1
    = Ok (JsTask (TasksService.with_title "Final report" Demo.sample)).
Proof.
  pose proof (clear_empties_the_cache "t1"
                (TasksService.update "t1"
                   (UpdateTaskDto.mk (Some "Final report") None None None None)
                   Demo.seeded).2 eq_refl) as ((_ & _ & _ & _ & Hf) & _).
  split; [reflexivity|exact Hf].
Defined.

(** ** The store under the requests of the service *)

Section StoreFacts.
Context `{Platform}.

Lemma store_wf_insert w w' t :
  store_wf w →
  tasksRepository w' = <[id t := t]> (tasksRepository w) →
  store_wf w'.
Proof.
  intros Hwf E k t' Hk. rewrite E in Hk.
  destruct (decide (id t = k)) as [<-|Hne].
  - rewrite lookup_insert_eq in Hk. by injection Hk as <-.
  - rewrite lookup_insert_ne in Hk by done. by apply Hwf.
Qed.

Lemma store_wf_delete w w' k :
  store_wf w →
  tasksRepository w' = delete k (tasksRepository w) →
  store_wf w'.
Proof.
  intros Hwf E k' t' Hk. rewrite E in Hk.
  apply lookup_delete_Some in Hk as [_ Hk]. by apply Hwf.
Qed.

Lemma store_wf_same w w' :
  store_wf w → tasksRepository w' = tasksRepository w → store_wf w'.
Proof. intros Hwf E k t Hk. rewrite E in Hk. by apply Hwf. Qed.

Lemma update_write_wf v dto w :
  store_wf w → store_wf (TasksService.update_write v dto w).2.
Proof.
  intros Hwf. destruct v; try done.
  apply (store_wf_insert w _ (TasksService.assign_fields dto t)); [done|].
  by rewrite update_write_store, assign_fields_id.
Qed.

Lemma remove_write_wf v w :
  store_wf w → store_wf (TasksService.remove_write v w).2.
Proof.
  intros Hwf. destruct v; try done. by apply (store_wf_delete w _ (id t)).
Qed.

Lemma update_wf i dto w : store_wf w → store_wf (TasksService.update i dto w).2.
Proof.
  intros Hwf. destruct (findOne_frame i w) as (Hr & _).
  unfold TasksService.update, mbind, M_bind, bind.
  destruct (TasksService.findOne i w) as [[v|e] w1]; cbn [snd] in *.
  - apply update_write_wf. by apply (store_wf_same w).
  - by apply (store_wf_same w).
Qed.

Lemma remove_wf i w : store_wf w → store_wf (TasksService.remove i w).2.
Proof.
  intros Hwf. destruct (findOne_frame i w) as (Hr & _).
  unfold TasksService.remove, mbind, M_bind, bind.
  destruct (TasksService.findOne i w) as [[v|e] w1]; cbn [snd] in *.
  - apply remove_write_wf. by apply (store_wf_same w).
  - by apply (store_wf_same w).
Qed.
End StoreFacts.

(** X9.  [update] publishes a status message exactly when the patch changes
    the status of the task its lookup returned, be it from the cache or from
    the store: one message, carrying the id of that task and the new status,
    when the patch names a status other than the one the task has; nothing
    when it names that status or no status. *)
Theorem update_publishes_on_change `{Platform} (i : string) (dto : UpdateTaskDto.t)
    (t : Task) (w : World) :
  (TasksService.findOne i w).1 = Ok (JsTask t) →
  let new := default (status t) (UpdateTaskDto.status dto) in
  Queue.jobs "task-processing" (TasksService.update i dto w).2
  = Queue.jobs "task-processing" w
    ++ (if decide (new = status t) then [] else [status_update (id t) new]).
Proof.
  intros Hl new. subst new. destruct (findOne_frame i w) as (_ & _ & Hq).
  destruct (TasksService.findOne i w) as [r w1] eqn:Hf. cbn in Hl, Hq. subst r.
  rewrite (update_bind i dto w _ _ Hf), update_write_task. cbv zeta.
  rewrite assign_fields_status, assign_fields_id.
  destruct (decide (status t ≠ _)) as [Hne|He].
  - rewrite decide_False by done. unfold publish, saved, Queue.jobs. cbn.
    by rewrite lookup_insert_eq, Hq.
  - apply dec_stable in He. rewrite decide_True by done.
    unfold saved, Queue.jobs. cbn. by rewrite Hq, app_nil_r.
Qed.

(** The sample task is COMPLETED: a patch to COMPLETED publishes nothing; a
    patch to PENDING publishes one message, here with the lookup served from
    the cache that an earlier read filled. *)
Lemma update_publishes_on_change_witness :
  let warm := (TasksService.findOne "t1" Demo.seeded).2 in
  Queue.jobs "task-processing"
    (TasksService.update "t1" (UpdateTaskDto.mk None None (Some COMPLETED) None None)
       Demo.seeded).2 = []
  ∧ cacheManager warm !! task_key "t1" = Some (JSON_stringify (JsTask Demo.sample), 300)
  ∧ Queue.jobs "task-processing"
      (TasksService.update "t1" (UpdateTaskDto.mk None None (Some PENDING) None None)
         warm).2 = [status_update "t1" PENDING].
Proof.
  split; [|split].
  - exact (update_publishes_on_change "t1"
             (UpdateTaskDto.mk None None (Some COMPLETED) None None)
             Demo.sample Demo.seeded eq_refl).
  - reflexivity.
  - exact (update_publishes_on_change "t1"
             (UpdateTaskDto.mk None None (Some PENDING) None None)
             Demo.sample (TasksService.findOne "t1" Demo.seeded).2 eq_refl).
Defined.

(** ** Writes that follow a cached read *)

Section StaleWrites.
Context `{Platform}.

(** The world after a first request has looked the task up through a cache
    miss and the cache write went through: the cache serves [t] from then on,
    whatever happens to the row. *)
Lemma served_from_cache i t w :
  get_fails (cacheFaults w) = false →
  cacheManager w !! task_key i = Some (JSON_stringify (JsTask t), 300) →
  roundtrips t →
  ∀ dto,
    TasksService.update i dto w
    = TasksService.update_write (JsTask t) dto
        (log_entry debug ("Cache HIT: " +:+ task_key i) w).
Proof.
  intros Hg Hc Hrt dto.
  by rewrite (update_bind _ _ _ _ _ (findOne_warm i t w Hg Hc Hrt)).
Qed.

Lemma update_cold_warm i dto t w :
  tasksRepository w !! i = Some t →
  cache_miss i w →
  set_fails (cacheFaults w) = false →
  get_fails (cacheFaults (TasksService.update i dto w).2) = false
  ∧ cacheManager (TasksService.update i dto w).2 !! task_key i
    = Some (JSON_stringify (JsTask t), 300).
Proof.
  intros Hr Hm Hs. rewrite (update_cold i dto t w Hr Hm).
  rewrite update_write_faults, update_write_cache.
  by apply after_fetch_warm.
Qed.

Lemma remove_cold i t w :
  tasksRepository w !! i = Some t →
  cache_miss i w →
  TasksService.remove i w
  = (Ok (), record_call (DbRemove (id t))
              (set_tasksRepository (delete (id t) (tasksRepository (after_fetch i t w)))
                 (after_fetch i t w))).
Proof.
  intros Hr Hm. by rewrite (remove_bind _ _ _ _ (findOne_miss i t w Hm Hr)).
Qed.
End StaleWrites.

(** X10.  A second update within the lifetime of the cache entry discards the
    first: both succeed, but the second patches the object cached before the
    first, so the row ends up as the original task with the second patch
    alone. *)
Theorem second_update_discards_first `{Platform} (i : string)
    (first second : UpdateTaskDto.t) (t : Task) (w : World) :
  tasksRepository w !! i = Some t →
  id t = i →
  cache_miss i w →
  set_fails (cacheFaults w) = false →
  roundtrips t →
  let r1 := TasksService.update i first w in
  let r2 := TasksService.update i second r1.2 in
  r1.1 = Ok (TasksService.assign_fields first t)
  ∧ tasksRepository r1.2 !! i = Some (TasksService.assign_fields first t)
  ∧ r2.1 = Ok (TasksService.assign_fields second t)
  ∧ tasksRepository r2.2 !! i = Some (TasksService.assign_fields second t).
Proof.
  intros Hr Hi Hm Hs Hrt r1 r2.
  destruct (update_cold_warm i first t w Hr Hm Hs) as (Hg1 & Hc1).
  destruct (update_cold_result i first t w Hr Hi Hm) as (w1 & Hu & Hst & _).
  subst r2 r1. rewrite Hu in *. cbn [fst snd] in *.
  split; [done|]. split; [by rewrite Hst, lookup_insert_eq|].
  rewrite (served_from_cache i t w1 Hg1 Hc1 Hrt second).
  rewrite update_write_store, Hi, lookup_insert_eq.
  by rewrite update_write_task.
Qed.

(** The title is changed, then the priority: the stored title is the old one
    again. *)
Lemma second_update_discards_first_witness :
  let r1 := TasksService.update "t1"
              (UpdateTaskDto.mk (Some "Final report") None None None None) Demo.seeded in
  let r2 := TasksService.update "t1"
              (UpdateTaskDto.mk None None None (Some HIGH) None) r1.2 in
  tasksRepository r1.2 !! "t1" = Some (TasksService.with_title "Final report" Demo.sample)
  ∧ tasksRepository r2.2 !! "t1" = Some (TasksService.with_priority HIGH Demo.sample).
Proof.
  destruct (second_update_discards_first "t1"
              (UpdateTaskDto.mk (Some "Final report") None None None None)
              (UpdateTaskDto.mk None None None (Some HIGH) None)
              Demo.sample Demo.seeded eq_refl eq_refl eq_refl eq_refl)
    as (_ & H1 & _ & H2).
  - split; [discriminate | reflexivity].
  - exact (conj H1 H2).
Defined.

(** X11.  [remove] of a stored task, its lookup missing the cache, deletes
    that row and no other, publishes nothing, and reaches the store with the
    two queries of the lookup and one delete. *)
Theorem remove_deletes_the_row `{Platform} (i : string) (t : Task) (w : World) :
  tasksRepository w !! i = Some t →
  id t = i →
  cache_miss i w →
  let r := TasksService.remove i w in
  r.1 = Ok ()
  ∧ tasksRepository r.2 = delete i (tasksRepository w)
  ∧ queues r.2 = queues w
  ∧ dbCalls r.2 = dbCalls w ++ [DbCount i; DbFindOne i; DbRemove i].
Proof.
  intros Hr Hi Hm r. subst r. rewrite (remove_cold i t w Hr Hm).
  destruct (after_fetch_frame i t w) as (Hs & _ & Hq & Hd).
  cbn [fst snd tasksRepository queues dbCalls record_call set_tasksRepository].
  rewrite Hs, Hq, Hd, Hi. by rewrite <- app_assoc.
Qed.

Lemma remove_deletes_the_row_witness :
  (TasksService.remove "t2" Samples.board).1 = Ok ()
  ∧ tasksRepository (TasksService.remove "t2" Samples.board).2
    = delete "t2" (tasksRepository Samples.board).
Proof.
  pose proof (remove_deletes_the_row "t2" Samples.t2 Samples.board
                eq_refl eq_refl eq_refl) as (H1 & H2 & _).
  exact (conj H1 H2).
Defined.

(** X12.  A removed task lives on in the cache: after [remove] (the cache
    write of its lookup having gone through) the row is gone, yet [findOne]
    returns the task, a second [remove] succeeds, and an [update] succeeds and
    saves the patched object, which puts the row back. *)
Theorem removed_task_can_be_updated `{Platform} (i : string) (dto : UpdateTaskDto.t)
    (t : Task) (w : World) :
  tasksRepository w !! i = Some t →
  id t = i →
  cache_miss i w →
  set_fails (cacheFaults w) = false →
  roundtrips t →
  let w' := (TasksService.remove i w).2 in
  tasksRepository w' !! i = None
  ∧ (TasksService.findOne i w').1 = Ok (JsTask t)
  ∧ (TasksService.remove i w').1 = Ok ()
  ∧ (TasksService.update i dto w').1 = Ok (TasksService.assign_fields dto t)
  ∧ tasksRepository (TasksService.update i dto w').2 !! i
    = Some (TasksService.assign_fields dto t).
Proof.
  intros Hr Hi Hm Hs Hrt w'. subst w'. rewrite (remove_cold i t w Hr Hm). cbn [snd].
  set (w' := record_call _ _).
  destruct (after_fetch_warm i t w Hm Hs) as (Hg1 & Hc1).
  assert (get_fails (cacheFaults w') = false) as Hg by done.
  assert (cacheManager w' !! task_key i = Some (JSON_stringify (JsTask t), 300)) as Hc
    by done.
  split; [by rewrite <- Hi; apply lookup_delete_eq|].
  split; [by rewrite (findOne_warm i t w' Hg Hc Hrt)|].
  split; [by rewrite (remove_bind _ _ _ _ (findOne_warm i t w' Hg Hc Hrt))|].
  rewrite (served_from_cache i t w' Hg Hc Hrt dto).
  rewrite update_write_store, Hi, lookup_insert_eq. by rewrite update_write_task.
Qed.

Lemma removed_task_can_be_updated_witness :
  let w' := (TasksService.remove "t1" Demo.seeded).2 in
  tasksRepository w' !! "t1" = None
  ∧ (TasksService.findOne "t1" w').1 = Ok (JsTask Demo.sample)
  ∧ tasksRepository
      (TasksService.update "t1" (UpdateTaskDto.mk None None None (Some HIGH) None) w').2
      !! "t1" = Some (TasksService.with_priority HIGH Demo.sample).
Proof.
  destruct (removed_task_can_be_updated "t1"
              (UpdateTaskDto.mk None None None (Some HIGH) None)
              Demo.sample Demo.seeded eq_refl eq_refl eq_refl eq_refl)
    as (H1 & H2 & _ & _ & H3).
  - split; [discriminate | reflexivity].
  - exact (conj H1 (conj H2 H3)).
Defined.

(** ** The service with a cache that cannot be written *)

Section NoCacheWrites.
Context `{Platform}.


End NoCacheWrites.



(** ** Creation *)

(** X14.  [create] inserts one row, under the generated id, and does not
    touch the cache: the row holds the fields of the request, the due date as
    the instant its string denotes, with the defaults for an absent status or
    priority; when the id is new to the table every other row is as before
    and the table has one row more. *)
Theorem create_inserts_one_row `{Platform} (dto : CreateTaskDto.t) (w : World) :
  tasksRepository w !! generate_id (tasksRepository w) = None →
  let r := TasksService.create dto w in
  ∃ t, r.1 = Ok t
       ∧ id t = generate_id (tasksRepository w)
       ∧ title t = CreateTaskDto.title dto
       ∧ description t = CreateTaskDto.description dto
       ∧ status t = default PENDING (CreateTaskDto.status dto)
       ∧ priority t = default default_priority (CreateTaskDto.priority dto)
       ∧ dueDate t = new_Date <$> CreateTaskDto.dueDate dto
       ∧ userId t = CreateTaskDto.userId dto
       ∧ tasksRepository r.2 !! id t = Some t
       ∧ (∀ k, k ≠ id t → tasksRepository r.2 !! k = tasksRepository w !! k)
       ∧ size (tasksRepository r.2) = S (size (tasksRepository w))
       ∧ cacheManager r.2 = cacheManager w.
Proof.
  intros Hfresh r. subst r. rewrite create_result.
  exists (Repository.new_row dto w). cbn [fst snd].
  repeat (split; [done|]).
  assert (tasksRepository
            (publish (status_update (id (Repository.new_row dto w))
                                    (status (Repository.new_row dto w)))
                     (Repository.insert dto w).2)
          = <[id (Repository.new_row dto w) := Repository.new_row dto w]>
              (tasksRepository w)) as -> by done.
  split; [by rewrite lookup_insert_eq|].
  split; [intros k Hk; by rewrite lookup_insert_ne|].
  split; [|done]. by apply map_size_insert_None.
Qed.

(** A request that names a due date and neither status nor priority. *)
Lemma create_inserts_one_row_witness :
  let dto := CreateTaskDto.mk "Write report" None None None
               (Some "2030-01-01T00:00:00.000Z") "u1" in
  ∃ t, (TasksService.create dto Demo.seeded).1 = Ok t
       ∧ id t = "t2"
       ∧ status t = PENDING
       ∧ dueDate t = Some 1893456000000
       ∧ size (tasksRepository (TasksService.create dto Demo.seeded).2) = 2%nat.
Proof.
  destruct (@create_inserts_one_row Demo.platform
              (CreateTaskDto.mk "Write report" None None None
                 (Some "2030-01-01T00:00:00.000Z") "u1") Demo.seeded
              ltac:(vm_compute; reflexivity))
    as (t & H1 & H2 & _ & _ & H5 & _ & H7 & _ & _ & _ & H11 & _).
  exists t. split; [exact H1|]. split; [exact H2|]. split; [exact H5|].
  split; [exact H7|]. exact H11.
Defined.

(** ** Listings *)

Section Listings.
Context `{Platform}.

Lemma length_rows w : length (RepositoryQueries.rows w) = size (tasksRepository w).
Proof. unfold RepositoryQueries.rows. by rewrite length_fmap, length_map_to_list. Qed.
End Listings.

Section Pages.
Context `{Platform}.

(** [ceil_div n d] pages of [d] items are enough for [n] items, and no fewer
    are. *)
Lemma ceil_div_le n d m :
  (1 ≤ d)%nat → (TasksController.ceil_div n d ≤ m)%nat ↔ (n ≤ m * d)%nat.
Proof.
  intros Hd. unfold TasksController.ceil_div.
  pose proof (Nat.div_mod_eq (n + d - 1) d) as E.
  pose proof (Nat.mod_upper_bound (n + d - 1) d ltac:(lia)) as Hr.
  split; intros Hle; nia.
Qed.

Lemma findAll_paginated status priority p l w :
  (1 ≤ p)%nat → (1 ≤ l)%nat →
  TasksController.findAll status priority (Some p) (Some l) w
  = (Ok (let all := List.filter (RepositoryQueries.matches (Filters.mk status priority))
                      (RepositoryQueries.rows w) in
         let tasks := take l (drop ((p - 1) * l) all) in
         TasksController.mkListing tasks (length tasks) (length all) (Some p) (Some l)
           (Some (TasksController.ceil_div (length all) l))), w).
Proof.
  intros Hp Hl. unfold TasksController.findAll.
  destruct p as [|p]; [lia|]. destruct l as [|l]; [lia|]. reflexivity.
Qed.

Lemma findAll_unpaginated status priority page limit w :
  TasksController.positive page && TasksController.positive limit = false →
  TasksController.findAll status priority page limit w
  = (Ok (let all := List.filter (RepositoryQueries.matches (Filters.mk status priority))
                      (RepositoryQueries.rows w) in
         TasksController.mkListing all (length all) (length all) None None None), w).
Proof. intros Hf. unfold TasksController.findAll. by rewrite Hf. Qed.
End Pages.

(** X16.  A paginated listing (page and limit at least 1) reports as total the
    number of matching tasks whatever the page, returns the window of at most
    [limit] of them that starts after the [page - 1] pages before it, and
    computes [totalPages] as the least number of pages of [limit] items that
    hold the total.  A page up to [totalPages] holds at least one task, a page
    beyond it holds none. *)
Theorem paginated_listing `{Platform} (status : option TaskStatus)
    (priority : option TaskPriority) (p l : nat) (w : World) :
  (1 ≤ p)%nat →
  (1 ≤ l)%nat →
  ∃ r all n,
    TasksController.findAll status priority (Some p) (Some l) w = (Ok r, w)
    ∧ TasksQueries.findWithFiltersAndPagination (Filters.mk status priority) None w
      = (Ok (all, length all), w)
    ∧ TasksController.totalCount r = length all
    ∧ TasksController.data r = take l (drop ((p - 1) * l) all)
    ∧ TasksController.count r = length (TasksController.data r)
    ∧ TasksController.count r = (l `min` (length all - (p - 1) * l))%nat
    ∧ TasksController.page r = Some p
    ∧ TasksController.limit r = Some l
    ∧ TasksController.totalPages r = Some n
    ∧ (length all ≤ n * l)%nat
    ∧ (∀ m, length all ≤ m * l → n ≤ m)%nat
    ∧ ((p ≤ n)%nat ↔ (1 ≤ TasksController.count r)%nat).
Proof.
  intros Hp Hl. rewrite (findAll_paginated status priority p l w Hp Hl). cbv zeta.
  set (all := List.filter _ _).
  eexists _, all, (TasksController.ceil_div (length all) l).
  split; [reflexivity|]. cbn [TasksController.totalCount TasksController.data
    TasksController.count TasksController.page TasksController.limit
    TasksController.totalPages].
  split; [done|]. split; [done|]. split; [done|]. split; [done|].
  split; [by rewrite length_take, length_drop|].
  split; [done|]. split; [done|]. split; [done|].
  split; [by apply ceil_div_le|].
  split; [intros m Hm; by apply ceil_div_le|].
  rewrite length_take, length_drop.
  pose proof (ceil_div_le (length all) l (p - 1) Hl) as Hg.
  split; intros Hle.
  - assert (¬ (length all ≤ (p - 1) * l)%nat) by (intros Hc; apply Hg in Hc; lia). lia.
  - destruct (decide (p ≤ TasksController.ceil_div (length all) l)%nat) as [|Hn]; [done|].
    assert (TasksController.ceil_div (length all) l ≤ p - 1)%nat as Hc by lia.
    apply Hg in Hc. lia.
Qed.

(** The board has five tasks: pages of two are three, the third holds one. *)
Lemma paginated_listing_witness :
  ∃ r, TasksController.findAll None None (Some 3%nat) (Some 2%nat) Samples.board
       = (Ok r, Samples.board)
       ∧ TasksController.totalCount r = 5%nat
       ∧ TasksController.count r = 1%nat
       ∧ TasksController.totalPages r = Some 3%nat.
Proof.
  destruct (paginated_listing None None 3 2 Samples.board ltac:(lia) ltac:(lia))
    as (r & all & n & Hr & Hall & Ht & _ & _ & Hc & _ & _ & Hn & _).
  exists r. split; [exact Hr|].
  injection Hall as Hall _. subst all.
  rewrite Ht, Hc. split; [vm_compute; reflexivity|]. split; [vm_compute; reflexivity|].
  rewrite (findAll_paginated None None 3 2 Samples.board) in Hr by lia.
  injection Hr as Hr. subst r. vm_compute. reflexivity.
Defined.

(** X17.  Without a page or without a limit, and also when either is 0, the
    listing is not paginated: the response carries every matching task, its
    count equals the total, and it has no page, limit or totalPages. *)
Theorem zero_page_or_limit_lists_all `{Platform} (status : option TaskStatus)
    (priority : option TaskPriority) (page limit : option nat) (w : World) :
  page = None ∨ page = Some 0%nat ∨ limit = None ∨ limit = Some 0%nat →
  ∃ all,
    TasksQueries.findWithFiltersAndPagination (Filters.mk status priority) None w
    = (Ok (all, length all), w)
    ∧ TasksController.findAll status priority page limit w
      = (Ok (TasksController.mkListing all (length all) (length all) None None None), w).
Proof.
  intros Hz. eexists. split; [reflexivity|].
  rewrite findAll_unpaginated; [done|].
  destruct Hz as [-> | [-> | [-> | ->]]]; cbn; try done; by rewrite andb_false_r.
Qed.

Lemma zero_page_or_limit_lists_all_witness :
  ∃ all,
    TasksController.findAll None None (Some 2%nat) (Some 0%nat) Samples.board
    = (Ok (TasksController.mkListing all 5 5 None None None), Samples.board).
Proof.
  destruct (zero_page_or_limit_lists_all None None (Some 2%nat) (Some 0%nat) Samples.board)
    as (all & Hq & Hf).
  - right. right. right. reflexivity.
  - exists all. injection Hq as Hq _. rewrite Hf. rewrite <- Hq. vm_compute. reflexivity.
Defined.

(** ** Statistics *)

Section Statistics.
Context `{Platform}.

Lemma foldr_count (c : Task → bool) (l : list Task) :
  foldr (λ t acc, ((if c t then 1 else 0) + acc)%nat) 0%nat l = length (List.filter c l).
Proof.
  induction l as [|t l IH]; [done|]. cbn [foldr List.filter]. rewrite IH.
  by destruct (c t).
Qed.

Lemma sum_case_count (c : Task → bool) (l : list Task) :
  default 0%nat (RepositoryQueries.sum_case c l) = length (List.filter c l).
Proof.
  destruct l as [|t l]; [done|]. unfold RepositoryQueries.sum_case.
  exact (foldr_count c (t :: l)).
Qed.

Lemma length_by_status (l : list Task) :
  length l
  = (length (List.filter (λ t, bool_decide (status t = COMPLETED)) l)
     + length (List.filter (λ t, bool_decide (status t = IN_PROGRESS)) l)
     + length (List.filter (λ t, bool_decide (status t = PENDING)) l)
     + length (List.filter (λ t, bool_decide (status t = OVERDUE)) l))%nat.
Proof.
  induction l as [|t l IH]; [done|]. cbn [length List.filter].
  destruct (status t); cbn [bool_decide decide_rel length]; simpl; lia.
Qed.

(** The columns the aggregate query returns are named by the folded aliases:
    the three written in lower case are found, the two in camel case are
    not. *)
Lemma stats_of_row (total completed inProgress pending highPriority : option nat) :
  let result := Some [ RepositoryQueries.as_ total "total";
                       RepositoryQueries.as_ completed "completed";
                       RepositoryQueries.as_ inProgress "inProgress";
                       RepositoryQueries.as_ pending "pending";
                       RepositoryQueries.as_ highPriority "highPriority" ] in
  Stats.mk (TasksQueries.parse_column result "total")
           (TasksQueries.parse_column result "completed")
           (TasksQueries.parse_column result "inProgress")
           (TasksQueries.parse_column result "pending")
           (TasksQueries.parse_column result "highPriority")
  = Stats.mk (default 0%nat total) (default 0%nat completed) 0
             (default 0%nat pending) 0.
Proof. vm_compute. reflexivity. Qed.

Lemma getStats_columns w :
  TasksQueries.getStats w
  = (Ok (let tasks := RepositoryQueries.rows w in
         Stats.mk
           (length tasks)
           (length (List.filter (λ t, bool_decide (status t = COMPLETED)) tasks))
           0
           (length (List.filter (λ t, bool_decide (status t = PENDING)) tasks))
           0), w).
Proof.
  unfold TasksQueries.getStats, TasksQueries.stats_query,
    mbind, M_bind, bind, mret, M_ret, ret.
  cbv zeta. rewrite stats_of_row. by rewrite !sum_case_count.
Qed.
End Statistics.

(** X19.  On PostgreSQL the statistics of the service agree with those the
    controller counts in memory on [total], [completed] and [pending], and
    report [inProgress] and [highPriority] as 0 whatever the table: the query
    labels these two columns with camel-case aliases that it does not quote,
    the database returns them as [inprogress] and [highpriority], and the
    reads of [result.inProgress] and [result.highPriority] find no such
    column and fall back to '0'. *)
Theorem service_stats_read_folded_aliases `{Platform} (w : World) :
  ∃ s c,
    TasksQueries.getStats w = (Ok s, w)
    ∧ TasksController.getStats w = (Ok c, w)
    ∧ Stats.total s = Stats.total c
    ∧ Stats.completed s = Stats.completed c
    ∧ Stats.pending s = Stats.pending c
    ∧ Stats.inProgress s = 0%nat
    ∧ Stats.highPriority s = 0%nat.
Proof.
  rewrite getStats_columns. eexists _, _.
  split; [reflexivity|]. split; [reflexivity|]. done.
Qed.

(** The sample board has one task IN_PROGRESS and three of HIGH priority: the
    controller counts them, the service reports none. *)
Lemma stats_of_the_board :
  (TasksController.getStats Samples.board).1 = Ok (Stats.mk 5 1 1 2 3)
  ∧ (TasksQueries.getStats Samples.board).1 = Ok (Stats.mk 5 1 0 2 0).
Proof. vm_compute. done. Qed.

(** X20.  The statistics of the controller count every row in [total] but
    break it down by three of the four statuses only: [total] is the number
    of rows and equals [completed + inProgress + pending] plus the number of
    OVERDUE tasks, which no field reports; [highPriority] never exceeds
    [total]; on an empty table every number is 0. *)
Theorem stats_leave_out_overdue `{Platform} (w : World) :
  ∃ st tasks,
    RepositoryQueries.find w = (Ok tasks, w)
    ∧ TasksController.getStats w = (Ok st, w)
    ∧ Stats.total st = length tasks
    ∧ Stats.total st = size (tasksRepository w)
    ∧ Stats.total st
      = (Stats.completed st + Stats.inProgress st + Stats.pending st
         + length (List.filter (λ t, bool_decide (status t = OVERDUE)) tasks))%nat
    ∧ (Stats.highPriority st ≤ Stats.total st)%nat
    ∧ (tasksRepository w = ∅ → st = Stats.mk 0 0 0 0 0).
Proof.
  eexists _, _. split; [reflexivity|]. split; [reflexivity|].
  cbn [Stats.total Stats.completed Stats.inProgress Stats.pending Stats.highPriority].
  split; [done|]. split; [apply length_rows|]. split; [apply length_by_status|].
  split; [apply List.filter_length_le|].
  intros E. unfold RepositoryQueries.rows. by rewrite E, map_to_list_empty.
Qed.

(** ** The handlers of the controller *)

(** X21.  For an id whose lookup misses the cache, the handler [findOne]
    returns the stored task, and for an id that has no row it throws the
    NotFoundException of the service: the handler's own check of the result,
    with its 404 HttpException, is not what answers an absent id. *)
Theorem handler_findOne_on_miss `{Platform} (i : string) (w : World) :
  cache_miss i w →
  (TasksController.findOne i w).1
  = match tasksRepository w !! i with
    | Some t => TasksController.Returned (JsTask t)
    | None => TasksController.Thrown (TasksController.ServiceError (not_found i))
    end.
Proof.
  intros Hm. unfold TasksController.findOne.
  destruct (tasksRepository w !! i) as [t|] eqn:Hr.
  - by rewrite (findOne_miss i t w Hm Hr).
  - by rewrite (findOne_absent i w Hm Hr).
Qed.

Lemma handler_findOne_on_miss_witness :
  (TasksController.findOne "t1" Demo.seeded).1 = TasksController.Returned (JsTask Demo.sample)
  ∧ (TasksController.findOne "t9" Demo.seeded).1
    = TasksController.Thrown
        (TasksController.ServiceError (NotFoundException "Task with ID t9 not found")).
Proof.
  split.
  - exact (handler_findOne_on_miss "t1" Demo.seeded eq_refl).
  - exact (handler_findOne_on_miss "t9" Demo.seeded eq_refl).
Defined.

Section Batch.
Context `{Platform}.

Lemma batch_turn_entry action acc w i :
  ∃ e w', TasksController.batch_turn action (acc, w) i = (acc ++ [e], w')
          ∧ TasksController.entry_taskId e = i.
Proof.
  unfold TasksController.batch_turn. cbn [fst snd].
  destruct (TasksController.batch_action action i w) as [[r|e] w']; eauto.
Qed.

Lemma batch_fold_ids action ids acc w :
  ∃ es w', foldl (TasksController.batch_turn action) (acc, w) ids = (acc ++ es, w')
           ∧ TasksController.entry_taskId <$> es = ids.
Proof.
  revert acc w. induction ids as [|i ids IH]; intros acc w.
  { exists [], w. by rewrite app_nil_r. }
  cbn [foldl]. destruct (batch_turn_entry action acc w i) as (e & w1 & -> & He).
  destruct (IH (acc ++ [e]) w1) as (es & w' & -> & Hes).
  exists (e :: es), w'. rewrite <- app_assoc. split; [done|]. cbn. by rewrite He, Hes.
Qed.

Lemma batch_fold_unknown action ids acc w :
  action ≠ "complete" → action ≠ "delete" →
  foldl (TasksController.batch_turn action) (acc, w) ids
  = (acc ++ ((λ i, TasksController.Failure i
                     (TasksController.HttpException ("Unknown action: " +:+ action) 400))
             <$> ids), w).
Proof.
  intros Hc Hd. revert acc. induction ids as [|i ids IH]; intros acc.
  { by rewrite app_nil_r. }
  cbn [foldl]. unfold TasksController.batch_turn at 2, TasksController.batch_action.
  cbn [fst snd]. rewrite !decide_False by done. rewrite IH, <- app_assoc. done.
Qed.

(** A turn appends its entry to the entries so far, whatever they are; so
    does a run of turns. *)
Lemma batch_turn_acc action acc w i :
  TasksController.batch_turn action (acc, w) i
  = (acc ++ (TasksController.batch_turn action ([], w) i).1,
     (TasksController.batch_turn action ([], w) i).2).
Proof.
  unfold TasksController.batch_turn. cbn [fst snd].
  by destruct (TasksController.batch_action action i w) as [[r|e] w'].
Qed.

Lemma batch_fold_acc action ids acc w :
  foldl (TasksController.batch_turn action) (acc, w) ids
  = (acc ++ (foldl (TasksController.batch_turn action) ([], w) ids).1,
     (foldl (TasksController.batch_turn action) ([], w) ids).2).
Proof.
  revert acc w. induction ids as [|i ids IH]; intros acc w.
  { cbn. by rewrite app_nil_r. }
  cbn [foldl]. rewrite (batch_turn_acc action acc w i).
  destruct (TasksController.batch_turn action ([], w) i) as [es w1]. cbn [fst snd].
  rewrite (IH (acc ++ es) w1), (IH es w1). cbn [fst snd]. by rewrite app_assoc.
Qed.

(** The batch on a first id and the ids after it: the turn of the first,
    then the batch on the rest from the state that turn left. *)
Lemma batchProcess_cons action i ids w :
  TasksController.batchProcess (i :: ids) action w
  = (let '(o, w1) := TasksController.batch_action action i w in
     let '(rest, w') := foldl (TasksController.batch_turn action) ([], w1) ids in
     (TasksController.Returned
        (match o with
         | TasksController.Returned result => TasksController.Success i result
         | TasksController.Thrown err => TasksController.Failure i err
         end :: rest), w')).
Proof.
  unfold TasksController.batchProcess. cbn [foldl].
  destruct (TasksController.batch_turn action ([], w) i) as [es w1] eqn:E.
  unfold TasksController.batch_turn in E. cbn [fst snd] in E.
  destruct (TasksController.batch_action action i w) as [[r|e] w2];
    cbn in E; injection E as <- <-; rewrite batch_fold_acc;
    by destruct (foldl _ ([], w2) ids).
Qed.
End Batch.

(** X22.  [batchProcess] never fails as a whole: whatever the ids and the
    action, it returns one entry for every id of the request, in the order of
    the request.  The entry of an id is a success, with the result of the
    service, when [update] (for 'complete') or [remove] (for 'delete')
    returns, and a failure with the error thrown when it throws or when the
    action is unknown; either way the ids after it are processed next, from
    the state that call left. *)
Theorem batch_reports_every_id `{Platform} (taskIds : list string) (action : string)
    (i : string) (w : World) :
  let completed := UpdateTaskDto.mk None None (Some COMPLETED) None None in
  (∃ entries,
     (TasksController.batchProcess taskIds action w).1 = TasksController.Returned entries
     ∧ TasksController.entry_taskId <$> entries = taskIds)
  ∧ ∃ rest w',
      TasksController.batchProcess taskIds action
        (if decide (action = "complete") then (TasksService.update i completed w).2
         else if decide (action = "delete") then (TasksService.remove i w).2
         else w)
      = (TasksController.Returned rest, w')
      ∧ TasksController.batchProcess (i :: taskIds) action w
        = (TasksController.Returned
             ((if decide (action = "complete") then
                 match (TasksService.update i completed w).1 with
                 | Ok task => TasksController.Success i (Some task)
                 | Throw e => TasksController.Failure i (TasksController.ServiceError e)
                 end
               else if decide (action = "delete") then
                 match (TasksService.remove i w).1 with
                 | Ok _ => TasksController.Success i None
                 | Throw e => TasksController.Failure i (TasksController.ServiceError e)
                 end
               else TasksController.Failure i
                      (TasksController.HttpException ("Unknown action: " +:+ action) 400))
              :: rest), w').
Proof.
  intros completed. split.
  { unfold TasksController.batchProcess.
    destruct (batch_fold_ids action taskIds [] w) as (es & w' & -> & Hes).
    by exists es. }
  rewrite batchProcess_cons. unfold TasksController.batchProcess at 1.
  unfold TasksController.batch_action. fold completed.
  destruct (decide (action = "complete")) as [Hc|Hc];
    [|destruct (decide (action = "delete")) as [Hd|Hd]].
  - destruct (TasksService.update i completed w) as [[task|e] w1]; cbn [fst snd];
      destruct (foldl _ ([], w1) taskIds) as [rest w']; by exists rest, w'.
  - destruct (TasksService.remove i w) as [[[]|e] w1]; cbn [fst snd];
      destruct (foldl _ ([], w1) taskIds) as [rest w']; by exists rest, w'.
  - destruct (foldl _ ([], w) taskIds) as [rest w']. by exists rest, w'.
Qed.

(** Two ids under 'complete', the first unknown: its entry is the failure of
    the lookup, and the second is completed all the same. *)
Lemma batch_continues_after_a_failure :
  (TasksController.batchProcess ["t9"; "t1"] "complete" Demo.seeded).1
  = TasksController.Returned
      [TasksController.Failure "t9"
         (TasksController.ServiceError (NotFoundException "Task with ID t9 not found"));
       TasksController.Success "t1" (Some Demo.sample)].
Proof. vm_compute. done. Qed.

(** X23.  An action other than 'complete' and 'delete' changes nothing: every
    id gets a failure entry with the error "Unknown action", and the store,
    the cache and the queues are untouched (not even a lookup is made). *)
Theorem batch_unknown_action `{Platform} (taskIds : list string) (action : string)
    (w : World) :
  action ≠ "complete" →
  action ≠ "delete" →
  TasksController.batchProcess taskIds action w
  = (TasksController.Returned
       ((λ i, TasksController.Failure i
                (TasksController.HttpException ("Unknown action: " +:+ action) 400))
        <$> taskIds), w).
Proof.
  intros Hc Hd. unfold TasksController.batchProcess.
  by rewrite (batch_fold_unknown action taskIds [] w Hc Hd).
Qed.

Lemma batch_unknown_action_witness :
  TasksController.batchProcess ["t1"; "t9"] "archive" Demo.seeded
  = (TasksController.Returned
       [TasksController.Failure "t1"
          (TasksController.HttpException "Unknown action: archive" 400);
        TasksController.Failure "t9"
          (TasksController.HttpException "Unknown action: archive" 400)], Demo.seeded).
Proof.
  exact (batch_unknown_action ["t1"; "t9"] "archive" Demo.seeded
           ltac:(discriminate) ltac:(discriminate)).
Defined.

Section BatchRuns.
Context `{Platform}.

Lemma task_key_inj i j : task_key i = task_key j → i = j.
Proof. intros E. apply buildKey_inj in E. by apply (String.app_inj _) in E. Qed.

(** A request on task [i] leaves the cache as it was or writes the entry of
    [i]; either way the lookup of another task still misses. *)
Lemma cache_miss_other i j w w' x :
  cacheFaults w' = cacheFaults w →
  cacheManager w' = cacheManager w ∨ cacheManager w' = <[task_key i := x]> (cacheManager w) →
  i ≠ j →
  cache_miss j w → cache_miss j w'.
Proof.
  unfold cache_miss. intros Hf Hc Hij. rewrite !get_result, Hf.
  fold (task_key j). destruct Hc as [->| ->]; [done|].
  rewrite lookup_insert_ne; [done|]. intros E. by apply task_key_inj in E.
Qed.

Lemma complete_present i t w :
  tasksRepository w !! i = Some t →
  id t = i →
  cache_miss i w →
  ∃ w', TasksController.batch_action "complete" i w
        = (TasksController.Returned (Some (TasksService.with_status COMPLETED t)), w')
        ∧ tasksRepository w' = <[i := TasksService.with_status COMPLETED t]> (tasksRepository w)
        ∧ cacheFaults w' = cacheFaults w
        ∧ (cacheManager w' = cacheManager w
           ∨ cacheManager w'
             = <[task_key i := (JSON_stringify (JsTask t), 300)]> (cacheManager w)).
Proof.
  intros Hr Hi Hm.
  destruct (update_cold_result i (UpdateTaskDto.mk None None (Some COMPLETED) None None)
              t w Hr Hi Hm) as (w' & Hu & Hs & Hc & Hf).
  exists w'. unfold TasksController.batch_action. rewrite decide_True by done.
  rewrite Hu. split; [done|]. split; [done|]. split; [done|].
  rewrite Hc, after_fetch_cache. destruct (set_fails (cacheFaults w)); auto.
Qed.

Lemma lookup_absent i w :
  tasksRepository w !! i = None →
  cache_miss i w →
  ∃ w', TasksService.findOne i w = (Throw (not_found i), w')
        ∧ tasksRepository w' = tasksRepository w
        ∧ cacheFaults w' = cacheFaults w
        ∧ cacheManager w' = cacheManager w.
Proof.
  intros Hr Hm. rewrite (findOne_absent i w Hm Hr). eexists. split; [done|].
  destruct (after_miss_frame i w) as (Hs & Hc & Hf & _). done.
Qed.

Lemma complete_absent i w :
  tasksRepository w !! i = None →
  cache_miss i w →
  ∃ w', TasksController.batch_action "complete" i w
        = (TasksController.Thrown (TasksController.ServiceError (not_found i)), w')
        ∧ tasksRepository w' = tasksRepository w
        ∧ cacheFaults w' = cacheFaults w
        ∧ cacheManager w' = cacheManager w.
Proof.
  intros Hr Hm. destruct (lookup_absent i w Hr Hm) as (w' & E & Hrest).
  exists w'. unfold TasksController.batch_action. rewrite decide_True by done.
  by rewrite (update_throw _ _ _ _ _ E).
Qed.

Lemma batch_fold_distinct action entry eff :
  turn_effect action entry eff →
  (∀ w w' i, tasksRepository w' !! i = tasksRepository w !! i → entry w' i = entry w i) →
  ∀ ids acc w,
    NoDup ids →
    store_wf w →
    (∀ i, i ∈ ids → cache_miss i w) →
    ∃ w', foldl (TasksController.batch_turn action) (acc, w) ids
          = (acc ++ (entry w <$> ids), w')
          ∧ ∀ k, tasksRepository w' !! k
                 = if decide (k ∈ ids) then eff (tasksRepository w !! k)
                   else tasksRepository w !! k.
Proof.
  intros Hturn Hext. induction ids as [|i ids IH]; intros acc w Hnd Hwf Hm.
  { exists w. rewrite app_nil_r. split; [done|]. intros k. by rewrite decide_False
      by apply not_elem_of_nil. }
  apply NoDup_cons in Hnd as [Hi Hnd].
  destruct (Hturn i w acc Hwf) as (w1 & Hstep & Hrow & Hother & Hwf1 & Hf1 & Hc1).
  { apply Hm. by left. }
  destruct (IH (acc ++ [entry w i]) w1 Hnd Hwf1) as (w' & Hfold & Hstore).
  { intros j Hj. assert (i ≠ j) by (intros ->; done).
    destruct Hc1 as [Hc1|[x Hc1]].
    - apply (cache_miss_other i j w w1 ("", 0)); auto. apply Hm. by right.
    - apply (cache_miss_other i j w w1 x); auto. apply Hm. by right. }
  exists w'. cbn [foldl fmap list_fmap]. rewrite Hstep, Hfold. split.
  - rewrite <- app_assoc. cbn [app]. do 3 f_equal.
    apply list_fmap_ext. intros n j Hj. apply Hext, Hother.
    apply list_elem_of_lookup_2 in Hj. by intros ->.
  - intros k. rewrite Hstore. destruct (decide (k = i)) as [->|Hk].
    + rewrite decide_False by done. by rewrite decide_True by (by left).
    + rewrite (Hother k Hk). destruct (decide (k ∈ ids)) as [Hin|Hnin].
      * by rewrite decide_True by (by right).
      * rewrite decide_False; [done|]. intros [?|?]%elem_of_cons; done.
Qed.

Lemma complete_turn :
  turn_effect "complete" complete_entry (fmap (TasksService.with_status COMPLETED)).
Proof.
  intros i w acc Hwf Hm. unfold TasksController.batch_turn, complete_entry. cbn [fst snd].
  destruct (tasksRepository w !! i) as [t|] eqn:Hr.
  - destruct (complete_present i t w Hr (Hwf i t Hr) Hm) as (w1 & -> & Hs & Hf & Hc).
    exists w1. split; [done|]. rewrite Hs.
    split; [by rewrite lookup_insert_eq|].
    split; [intros j Hj; by rewrite lookup_insert_ne|].
    split.
    { apply (store_wf_insert w w1 (TasksService.with_status COMPLETED t)); [done|].
      cbn [id TasksService.with_status]. by rewrite (Hwf i t Hr). }
    split; [done|]. destruct Hc; eauto.
  - destruct (complete_absent i w Hr Hm) as (w1 & -> & Hs & Hf & Hc).
    exists w1. split; [done|]. rewrite Hs. split; [by rewrite Hr|].
    split; [done|]. split; [by apply (store_wf_same w)|]. auto.
Qed.

Lemma delete_turn : turn_effect "delete" delete_entry (λ _, None).
Proof.
  intros i w acc Hwf Hm. unfold TasksController.batch_turn, delete_entry,
    TasksController.batch_action. cbn [fst snd].
  rewrite decide_False by done. rewrite decide_True by done.
  destruct (tasksRepository w !! i) as [t|] eqn:Hr.
  - rewrite (remove_cold i t w Hr Hm).
    destruct (after_fetch_frame i t w) as (Hs & Hf & _).
    eexists. split; [reflexivity|].
    cbn [tasksRepository cacheFaults cacheManager record_call set_tasksRepository].
    rewrite Hs, (Hwf i t Hr).
    split; [apply lookup_delete_eq|].
    split; [intros j Hj; by rewrite lookup_delete_ne|].
    split.
    { by apply (store_wf_delete w _ i). }
    split; [done|]. rewrite after_fetch_cache.
    destruct (set_fails (cacheFaults w)); eauto.
  - destruct (lookup_absent i w Hr Hm) as (w1 & E & Hs & Hf & Hc).
    rewrite (remove_throw _ _ _ _ E).
    exists w1. split; [done|]. rewrite Hs. split; [done|].
    split; [done|]. split; [by apply (store_wf_same w)|]. auto.
Qed.
End BatchRuns.

(** X24.  A 'complete' batch over distinct ids whose lookups miss the cache
    treats every id on its own: an id with a row gets a success entry with the
    task in status COMPLETED, an id without gets a failure entry with the
    NotFoundException; afterwards the rows of the request are COMPLETED and
    every other row is as before. *)
Theorem batch_complete `{Platform} (taskIds : list string) (w : World) :
  NoDup taskIds →
  store_wf w →
  (∀ i, i ∈ taskIds → cache_miss i w) →
  let r := TasksController.batchProcess taskIds "complete" w in
  r.1 = TasksController.Returned
          ((λ i, match tasksRepository w !! i with
                 | Some t => TasksController.Success i
                               (Some (TasksService.with_status COMPLETED t))
                 | None => TasksController.Failure i
                             (TasksController.ServiceError (not_found i))
                 end) <$> taskIds)
  ∧ ∀ k, tasksRepository r.2 !! k
         = if decide (k ∈ taskIds)
           then TasksService.with_status COMPLETED <$> tasksRepository w !! k
           else tasksRepository w !! k.
Proof.
  intros Hnd Hwf Hm r. subst r. unfold TasksController.batchProcess.
  destruct (batch_fold_distinct "complete" complete_entry _ complete_turn) with
    (ids := taskIds) (acc := @nil TasksController.BatchEntry) (w := w)
    as (w' & -> & Hs); [|done|done|done|].
  { intros w1 w2 i E. unfold complete_entry. by rewrite E. }
  split; [done|]. exact Hs.
Qed.

(** Two tasks of the board and an id it does not hold. *)
Lemma batch_complete_witness :
  let r := TasksController.batchProcess ["t2"; "t9"; "t4"] "complete" Samples.board in
  r.1 = TasksController.Returned
          [TasksController.Success "t2" (Some (TasksService.with_status COMPLETED Samples.t2));
           TasksController.Failure "t9"
             (TasksController.ServiceError (NotFoundException "Task with ID t9 not found"));
           TasksController.Success "t4" (Some (TasksService.with_status COMPLETED Samples.t4))]
  ∧ status <$> tasksRepository r.2 !! "t4" = Some COMPLETED
  ∧ tasksRepository r.2 !! "t3" = Some Samples.t3.
Proof.
  destruct (batch_complete ["t2"; "t9"; "t4"] Samples.board) as (Hr & Hs).
  - apply NoDup_ListNoDup. repeat constructor; cbn; intuition discriminate.
  - exact board_wf.
  - intros i _. by apply cold_cache_miss.
  - split; [exact Hr|]. split.
    + rewrite (Hs "t4"). reflexivity.
    + rewrite (Hs "t3"). reflexivity.
Defined.

(** X25.  A 'delete' batch over distinct ids whose lookups miss the cache
    removes the rows of the request and no other: an id with a row gets a
    success entry without result, an id without gets a failure entry with the
    NotFoundException, and the failure of one id leaves the others to be
    processed. *)
Theorem batch_delete `{Platform} (taskIds : list string) (w : World) :
  NoDup taskIds →
  store_wf w →
  (∀ i, i ∈ taskIds → cache_miss i w) →
  let r := TasksController.batchProcess taskIds "delete" w in
  r.1 = TasksController.Returned
          ((λ i, match tasksRepository w !! i with
                 | Some t => TasksController.Success i None
                 | None => TasksController.Failure i
                             (TasksController.ServiceError (not_found i))
                 end) <$> taskIds)
  ∧ ∀ k, tasksRepository r.2 !! k
         = if decide (k ∈ taskIds) then None else tasksRepository w !! k.
Proof.
  intros Hnd Hwf Hm r. subst r. unfold TasksController.batchProcess.
  destruct (batch_fold_distinct "delete" delete_entry _ delete_turn) with
    (ids := taskIds) (acc := @nil TasksController.BatchEntry) (w := w)
    as (w' & -> & Hs); [|done|done|done|].
  { intros w1 w2 i E. unfold delete_entry. by rewrite E. }
  split; [done|]. exact Hs.
Qed.

Lemma batch_delete_witness :
  let r := TasksController.batchProcess ["t9"; "t3"] "delete" Samples.board in
  r.1 = TasksController.Returned
          [TasksController.Failure "t9"
             (TasksController.ServiceError (NotFoundException "Task with ID t9 not found"));
           TasksController.Success "t3" None]
  ∧ tasksRepository r.2 !! "t3" = None
  ∧ tasksRepository r.2 !! "t2" = Some Samples.t2.
Proof.
  destruct (batch_delete ["t9"; "t3"] Samples.board) as (Hr & Hs).
  - apply NoDup_ListNoDup. repeat constructor; cbn; intuition discriminate.
  - exact board_wf.
  - intros i _. by apply cold_cache_miss.
  - split; [exact Hr|]. split.
    + rewrite (Hs "t3"). reflexivity.
    + rewrite (Hs "t2"). reflexivity.
Defined.
